(** * Blinky sample (templates/nfed/src/main.c)

    A shallow embedding of the two [main] functions of the sample, one per
    board variant, over an abstract Zephyr platform.  Every kernel or driver
    call of the source is a call into the platform: it may change the
    hardware state, it yields the value the C function returns, and it is
    written to a chronological trace.  [while (1)] is run with a bound on the
    number of iterations; a run that uses the whole bound is still inside
    the loop. *)

From Stdlib Require Import ZArith List String Ascii Bool Arith Lia.
Import ListNotations.

Local Open Scope string_scope.
Local Open Scope list_scope.
Local Open Scope Z_scope.

(** ** Data of the platform headers *)

(** [const struct device *]: an opaque handle bound from the devicetree. *)
Record device : Type := Device { dev_label : string }.

(** [struct gpio_dt_spec]: controller, pin number and devicetree flags. *)
Record gpio_dt_spec : Type := GpioDtSpec {
  port : device;
  pin : Z;
  dt_flags : Z
}.

(** [k_timeout_t] as the source builds it, [K_MSEC(ms)]. *)
Inductive k_timeout_t : Type := K_MSEC (ms : Z).

(** What the board configuration and the devicetree supply to the source:
    [CONFIG_BOARD], [DEVICE_DT_GET(DT_NODELABEL(npm1300_leds))] and
    [GPIO_DT_SPEC_GET(DT_ALIAS(led0), gpios)]. *)
Record board : Type := Board {
  CONFIG_BOARD : string;
  npm1300_leds : device;
  led0 : gpio_dt_spec
}.

(** [#define SLEEP_TIME_MS 1000] *)
Definition SLEEP_TIME_MS : Z := 1000.

(** Modelled from the spec: the flag macros of the platform's gpio.h, which
    the sources only name.  The spec reads [GPIO_OUTPUT_ACTIVE] as "pin
    direction output with initial state active"; the bit positions are the
    ones of Zephyr's header. *)
Definition GPIO_ACTIVE_LOW : Z := Z.shiftl 1 0.
Definition GPIO_OUTPUT : Z := Z.shiftl 1 17.
Definition GPIO_OUTPUT_INIT_LOW : Z := Z.shiftl 1 18.
Definition GPIO_OUTPUT_INIT_HIGH : Z := Z.shiftl 1 19.
Definition GPIO_OUTPUT_INIT_LOGICAL : Z := Z.shiftl 1 20.
Definition GPIO_OUTPUT_ACTIVE : Z :=
  Z.lor GPIO_OUTPUT (Z.lor GPIO_OUTPUT_INIT_HIGH GPIO_OUTPUT_INIT_LOGICAL).

(** The line feed the source writes as a backslash escape. *)
Definition LF : string := String (ascii_of_nat 10) EmptyString.

(** ** Calls and traces *)

(** One constructor per kernel or driver call the source makes, with the
    arguments it passes. *)
Inductive event : Type :=
| EvLogInf (msg : string)
| EvPrintk (fmt : string) (args : list string)
| EvLedOn (dev : device) (led : Z)
| EvLedOff (dev : device) (led : Z)
| EvSleep (timeout : k_timeout_t)
| EvMsleep (ms : Z)
| EvGpioIsReady (spec : gpio_dt_spec)
| EvGpioConfigure (spec : gpio_dt_spec) (extra_flags : Z)
| EvGpioToggle (spec : gpio_dt_spec).

Definition is_diagnostic (e : event) : bool :=
  match e with
  | EvLogInf _ | EvPrintk _ _ => true
  | _ => false
  end.

Definition is_configure (e : event) : bool :=
  match e with EvGpioConfigure _ _ => true | _ => false end.

Definition is_toggle (e : event) : bool :=
  match e with EvGpioToggle _ => true | _ => false end.

Definition is_sleep (e : event) : bool :=
  match e with EvSleep _ | EvMsleep _ => true | _ => false end.

Definition count (p : event -> bool) (tr : list event) : nat :=
  List.length (List.filter p tr).

(** [printk] conversion of the one directive the source uses, [%s]. *)
Fixpoint vformat (fmt : string) (args : list string) : string :=
  match fmt with
  | EmptyString => EmptyString
  | String c rest =>
      match rest with
      | String d rest' =>
          if andb (Ascii.eqb c "%"%char) (Ascii.eqb d "s"%char)
          then match args with
               | a :: args' => (a ++ vformat rest' args')%string
               | [] => vformat rest' []
               end
          else String c (vformat rest args)
      | EmptyString => String c EmptyString
      end
  end.

Fixpoint line_feeds (s : string) : nat :=
  match s with
  | EmptyString => O
  | String c rest =>
      ((if Ascii.eqb c (ascii_of_nat 10) then 1 else 0) + line_feeds rest)%nat
  end.

(** ** The platform interface

    The kernel and driver entry points the source calls.  Each takes the
    hardware state and gives the C return value with the new state; nothing
    is assumed about either.  A C [int] result is carried as an integer, of
    which the source reads the sign only; [bool] is the result of the
    readiness check. *)
Class Zephyr (hw : Type) : Type := {
  sys_log_inf : string -> hw -> hw;
  sys_printk : string -> hw -> hw;
  sys_led_on : device -> Z -> hw -> Z * hw;
  sys_led_off : device -> Z -> hw -> Z * hw;
  sys_k_sleep : k_timeout_t -> hw -> Z * hw;
  sys_k_msleep : Z -> hw -> Z * hw;
  sys_gpio_is_ready_dt : gpio_dt_spec -> hw -> bool * hw;
  sys_gpio_pin_configure_dt : gpio_dt_spec -> Z -> hw -> Z * hw;
  sys_gpio_pin_toggle_dt : gpio_dt_spec -> hw -> Z * hw
}.

(** ** A state monad that also writes the trace *)

Record run (hw A : Type) : Type := Run {
  value : A;
  final : hw;
  trace : list event
}.
Arguments Run {hw A} _ _ _.
Arguments value {hw A} _.
Arguments final {hw A} _.
Arguments trace {hw A} _.

Definition M (hw A : Type) : Type := hw -> run hw A.

Definition ret {hw A} (a : A) : M hw A := fun s => Run a s [].

Definition bind {hw A B} (m : M hw A) (f : A -> M hw B) : M hw B :=
  fun s =>
    let r1 := m s in
    let r2 := f (value r1) (final r1) in
    Run (value r2) (final r2) (trace r1 ++ trace r2).

Definition call {hw A} (e : event) (op : hw -> A * hw) : M hw A :=
  fun s => Run (fst (op s)) (snd (op s)) [e].

Declare Scope blinky_scope.
Delimit Scope blinky_scope with blinky.
Notation "x <- m ;; k" := (bind m (fun x => k))
  (at level 100, m at next level, right associativity) : blinky_scope.
Notation "m ;; k" := (bind m (fun _ => k))
  (at level 100, right associativity) : blinky_scope.
Local Open Scope blinky_scope.

(** ** Control flow of [while (1)] *)

(** How one execution of a loop body ends. *)
Inductive ctl (R : Type) : Type :=
| Continue
| Break
| Return (r : R).
Arguments Continue {R}.
Arguments Break {R}.
Arguments Return {R} _.

(** How a bounded run of the loop ends. *)
Inductive loop_exit (R : Type) : Type :=
| OutOfFuel
| Broke
| LoopReturn (r : R).
Arguments OutOfFuel {R}.
Arguments Broke {R}.
Arguments LoopReturn {R} _.

(** How a bounded run of an entry point ends: it returned, or it is still
    inside its loop when the bound is used up. *)
Inductive outcome (R : Type) : Type :=
| Exit (r : R)
| Looping.
Arguments Exit {R} _.
Arguments Looping {R}.

Fixpoint while1 {hw R} (fuel : nat) (body : M hw (ctl R)) : M hw (loop_exit R) :=
  match fuel with
  | O => ret OutOfFuel
  | S fuel' =>
      c <- body ;;
      match c with
      | Continue => while1 fuel' body
      | Break => ret Broke
      | Return r => ret (LoopReturn r)
      end
  end.

(** The statements after a loop run only when the loop was left by [break]. *)
Definition after_loop {hw R} (l : loop_exit R) (rest : M hw (outcome R))
  : M hw (outcome R) :=
  match l with
  | OutOfFuel => ret Looping
  | Broke => rest
  | LoopReturn r => ret (Exit r)
  end.

(** ** The calls of the source, as monadic operations *)

Section Calls.
Context {hw : Type} `{Zephyr hw}.

Definition LOG_INF (msg : string) : M hw unit :=
  call (EvLogInf msg) (fun s => (tt, sys_log_inf msg s)).

Definition printk (fmt : string) (args : list string) : M hw unit :=
  call (EvPrintk fmt args) (fun s => (tt, sys_printk (vformat fmt args) s)).

Definition led_on (dev : device) (led : Z) : M hw Z :=
  call (EvLedOn dev led) (sys_led_on dev led).

Definition led_off (dev : device) (led : Z) : M hw Z :=
  call (EvLedOff dev led) (sys_led_off dev led).

Definition k_sleep (timeout : k_timeout_t) : M hw Z :=
  call (EvSleep timeout) (sys_k_sleep timeout).

Definition k_msleep (ms : Z) : M hw Z :=
  call (EvMsleep ms) (sys_k_msleep ms).

Definition gpio_is_ready_dt (spec : gpio_dt_spec) : M hw bool :=
  call (EvGpioIsReady spec) (sys_gpio_is_ready_dt spec).

Definition gpio_pin_configure_dt (spec : gpio_dt_spec) (extra_flags : Z) : M hw Z :=
  call (EvGpioConfigure spec extra_flags) (sys_gpio_pin_configure_dt spec extra_flags).

Definition gpio_pin_toggle_dt (spec : gpio_dt_spec) : M hw Z :=
  call (EvGpioToggle spec) (sys_gpio_pin_toggle_dt spec).
End Calls.

(** ** Variant A: CONFIG_BOARD_CIRCUITDOJO_FEATHER_NRF9151 *)

Module VariantA.
Section Main.
Context {hw : Type} `{Zephyr hw}.
Variable b : board.

(** [static const struct device *leds] *)
Definition leds : device := npm1300_leds b.

(** The body of [while (1)]: four calls, none of whose results is read,
    and no [break] or [return]. *)
Definition loop_body : M hw (ctl Z) :=
  led_on leds 2 ;;
  k_sleep (K_MSEC SLEEP_TIME_MS) ;;
  led_off leds 2 ;;
  k_sleep (K_MSEC SLEEP_TIME_MS) ;;
  ret Continue.

(** [return 0;] after the loop. *)
Definition epilogue : M hw (outcome Z) := ret (Exit 0).

Definition main (fuel : nat) : M hw (outcome Z) :=
  LOG_INF "Blinky Sample" ;;
  l <- while1 fuel loop_body ;;
  after_loop l epilogue.
End Main.
End VariantA.

(** ** Variant B: every other board *)

Module VariantB.
Section Main.
Context {hw : Type} `{Zephyr hw}.
Variable b : board.

(** [static const struct gpio_dt_spec led] *)
Definition led : gpio_dt_spec := led0 b.

(** The body of [while (1)]. *)
Definition loop_body : M hw (ctl unit) :=
  r <- gpio_pin_toggle_dt led ;;
  if r <? 0 then ret (Return tt)
  else (k_msleep SLEEP_TIME_MS ;; ret Continue).

(** The end of a [void] function reached by falling out of the loop. *)
Definition epilogue : M hw (outcome unit) := ret (Exit tt).

Definition main (fuel : nat) : M hw (outcome unit) :=
  printk ("Hello World! %s" ++ LF)%string [CONFIG_BOARD b] ;;
  ready <- gpio_is_ready_dt led ;;
  if negb ready then ret (Exit tt)
  else
    r <- gpio_pin_configure_dt led GPIO_OUTPUT_ACTIVE ;;
    if r <? 0 then ret (Exit tt)
    else
      l <- while1 fuel loop_body ;;
      after_loop l epilogue.
End Main.
End VariantB.

(** ** States and results along a run of Variant B

    The hardware states in which Variant B makes its calls, and what the
    platform answers there. *)

Section VariantBStates.
Context {hw : Type} `{Zephyr hw}.
Variable b : board.

Definition greeting_fmt : string := ("Hello World! %s" ++ LF)%string.

Definition after_greeting (s : hw) : hw :=
  sys_printk (vformat greeting_fmt [CONFIG_BOARD b]) s.

Definition is_ready (s : hw) : bool :=
  fst (sys_gpio_is_ready_dt (VariantB.led b) (after_greeting s)).

Definition after_ready_check (s : hw) : hw :=
  snd (sys_gpio_is_ready_dt (VariantB.led b) (after_greeting s)).

Definition configure_ret (s : hw) : Z :=
  fst (sys_gpio_pin_configure_dt (VariantB.led b) GPIO_OUTPUT_ACTIVE
         (after_ready_check s)).

Definition loop_entry (s : hw) : hw :=
  snd (sys_gpio_pin_configure_dt (VariantB.led b) GPIO_OUTPUT_ACTIVE
         (after_ready_check s)).

Definition toggle_ret (s : hw) : Z :=
  fst (sys_gpio_pin_toggle_dt (VariantB.led b) s).

Definition after_toggle (s : hw) : hw :=
  snd (sys_gpio_pin_toggle_dt (VariantB.led b) s).

Definition after_iteration (s : hw) : hw :=
  snd (sys_k_msleep SLEEP_TIME_MS (after_toggle s)).

Fixpoint after_iterations (k : nat) (s : hw) : hw :=
  match k with
  | O => s
  | S k' => after_iterations k' (after_iteration s)
  end.

(** The calls Variant B makes before its loop. *)
Definition startup_calls : list event :=
  [EvPrintk greeting_fmt [CONFIG_BOARD b];
   EvGpioIsReady (VariantB.led b);
   EvGpioConfigure (VariantB.led b) GPIO_OUTPUT_ACTIVE].

(** The calls of one iteration whose toggle succeeds. *)
Definition toggle_cycle : list event :=
  [EvGpioToggle (VariantB.led b); EvMsleep 1000].
End VariantBStates.

(** ** States along a run of Variant A *)

Section VariantAStates.
Context {hw : Type} `{Zephyr hw}.
Variable b : board.

(** The hardware after one iteration started in [s]: the four calls of the
    loop body, each in the state the one before it left. *)
Definition blink_once (s : hw) : hw :=
  snd (sys_k_sleep (K_MSEC SLEEP_TIME_MS)
    (snd (sys_led_off (VariantA.leds b) 2
      (snd (sys_k_sleep (K_MSEC SLEEP_TIME_MS)
        (snd (sys_led_on (VariantA.leds b) 2 s))))))).

Fixpoint blink_times (n : nat) (s : hw) : hw :=
  match n with
  | O => s
  | S n' => blink_times n' (blink_once s)
  end.
End VariantAStates.

(** The calls of one iteration of Variant A. *)
Definition blink_cycle (b : board) : list event :=
  [EvLedOn (VariantA.leds b) 2; EvSleep (K_MSEC 1000);
   EvLedOff (VariantA.leds b) 2; EvSleep (K_MSEC 1000)].

Fixpoint cycles (n : nat) (cycle : list event) : list event :=
  match n with
  | O => []
  | S n' => cycle ++ cycles n' cycle
  end.

(** A sequence of [n] levels that alternates, starting from [first]. *)
Fixpoint alternating (first : bool) (n : nat) : list bool :=
  match n with
  | O => []
  | S n' => first :: alternating (negb first) n'
  end.

(** ** A simulated board

    Modelled from the spec: the GPIO and LED drivers are the platform's, not
    this repository's.  The simulation keeps the pin's logical level
    ([true] is "active") and inverts it on every toggle that succeeds.  Its
    record of levels is the spec's: one entry per toggle that succeeds,
    starting from "active", so the entry of a toggle is the level that
    toggle finds on the pin.  Readiness and the status codes of the fallible
    calls are scripted. *)

Module Sim.

Record script : Type := Script {
  ready : bool;
  configure_status : Z;
  toggle_status : nat -> Z;
  led_status : nat -> Z
}.

Record state : Type := State {
  pin_is_output : bool;
  pin_level : bool;
  toggle_calls : nat;
  recorded_levels : list bool;
  led_calls : nat;
  led_writes : list (Z * bool);
  uptime_ms : Z;
  console : list string
}.

Definition power_on : state :=
  State false false 0 [] 0 [] 0 [].

Definition flags_output (flags : Z) : bool := Z.testbit flags 17.

(** The logical level a configuration drives, if it drives one. *)
Definition init_level (flags : Z) : option bool :=
  let active_low := Z.testbit flags 0 in
  let logical := Z.testbit flags 20 in
  if Z.testbit flags 19 then Some (if logical then true else negb active_low)
  else if Z.testbit flags 18 then Some (if logical then false else active_low)
  else None.

Definition write_console (text : string) (s : state) : state :=
  State (pin_is_output s) (pin_level s) (toggle_calls s) (recorded_levels s)
        (led_calls s) (led_writes s) (uptime_ms s) (console s ++ [text]).

Definition sleep_ms (ms : Z) (s : state) : Z * state :=
  (0, State (pin_is_output s) (pin_level s) (toggle_calls s) (recorded_levels s)
            (led_calls s) (led_writes s) (uptime_ms s + Z.max 0 ms) (console s)).

Definition sleep (t : k_timeout_t) (s : state) : Z * state :=
  match t with K_MSEC ms => sleep_ms ms s end.

Definition led_write (sc : script) (on : bool) (dev : device) (led : Z) (s : state)
  : Z * state :=
  let r := led_status sc (led_calls s) in
  (r, State (pin_is_output s) (pin_level s) (toggle_calls s) (recorded_levels s)
            (S (led_calls s))
            (if r <? 0 then led_writes s else led_writes s ++ [(led, on)])
            (uptime_ms s) (console s)).

Definition configure (sc : script) (spec : gpio_dt_spec) (extra_flags : Z) (s : state)
  : Z * state :=
  let r := configure_status sc in
  if r <? 0 then (r, s)
  else
    let flags := Z.lor (dt_flags spec) extra_flags in
    (r, State (flags_output flags)
              (match init_level flags with Some l => l | None => pin_level s end)
              (toggle_calls s) (recorded_levels s)
              (led_calls s) (led_writes s) (uptime_ms s) (console s)).

Definition toggle (sc : script) (spec : gpio_dt_spec) (s : state) : Z * state :=
  let r := toggle_status sc (toggle_calls s) in
  if r <? 0
  then (r, State (pin_is_output s) (pin_level s) (S (toggle_calls s))
                 (recorded_levels s)
                 (led_calls s) (led_writes s) (uptime_ms s) (console s))
  else (r, State (pin_is_output s) (negb (pin_level s)) (S (toggle_calls s))
                 (recorded_levels s ++ [pin_level s])
                 (led_calls s) (led_writes s) (uptime_ms s) (console s)).

#[export] Instance platform (sc : script) : Zephyr state := {
  sys_log_inf := write_console;
  sys_printk := write_console;
  sys_led_on := led_write sc true;
  sys_led_off := led_write sc false;
  sys_k_sleep := sleep;
  sys_k_msleep := sleep_ms;
  sys_gpio_is_ready_dt := fun _ s => (ready sc, s);
  sys_gpio_pin_configure_dt := configure sc;
  sys_gpio_pin_toggle_dt := toggle sc
}.

(** A board description to run the simulation on. *)
Definition feather : board :=
  Board "circuitdojo_feather_nrf9160"
        (Device "npm1300_leds")
        (GpioDtSpec (Device "gpio0") 3 GPIO_ACTIVE_LOW).

(** Everything succeeds. *)
Definition healthy : script :=
  Script true 0 (fun _ => 0) (fun _ => 0).

(** The controller is not ready. *)
Definition not_ready : script :=
  Script false 0 (fun _ => 0) (fun _ => 0).

(** Configuration fails with -EIO. *)
Definition configure_fails : script :=
  Script true (-5) (fun _ => 0) (fun _ => 0).

(** The third toggle fails with -EIO, the others succeed. *)
Definition third_toggle_fails : script :=
  Script true 0 (fun k => if Nat.eqb k 2 then -5 else 0) (fun _ => 0).

(** Every LED write fails with -EIO. *)
Definition leds_fail : script :=
  Script true 0 (fun _ => 0) (fun _ => -5).

End Sim.

(** The simulated board after [k] loop iterations of Variant B whose
    toggles all succeed, in closed form. *)
Definition sim_blinked (k : nat) (s : Sim.state) : Sim.state :=
  Sim.State (Sim.pin_is_output s)
            (xorb (Sim.pin_level s) (Nat.odd k))
            (Sim.toggle_calls s + k)
            (Sim.recorded_levels s ++ alternating (Sim.pin_level s) k)
            (Sim.led_calls s) (Sim.led_writes s)
            (Sim.uptime_ms s + 1000 * Z.of_nat k) (Sim.console s).

(** The simulated board at the loop entry of Variant B, after a
    configuration that succeeds. *)
Definition sim_configured (b : board) (s : Sim.state) : Sim.state :=
  Sim.State true true (Sim.toggle_calls s) (Sim.recorded_levels s)
            (Sim.led_calls s) (Sim.led_writes s) (Sim.uptime_ms s)
            (Sim.console s ++ [("Hello World! " ++ CONFIG_BOARD b ++ LF)%string]).

(** How the loop stands after an iteration that was started with no bound
    left to spare: still running if the body continued, left otherwise. *)
Definition exit_of_ctl {R} (c : ctl R) : loop_exit R :=
  match c with
  | Continue => OutOfFuel
  | Break => Broke
  | Return r => LoopReturn r
  end.

Definition is_led_on (e : event) : bool :=
  match e with EvLedOn _ _ => true | _ => false end.

Definition is_led_off (e : event) : bool :=
  match e with EvLedOff _ _ => true | _ => false end.

Definition is_ready_check (e : event) : bool :=
  match e with EvGpioIsReady _ => true | _ => false end.

(** * Properties *)

(** ** The monad and the loop *)

Lemma bind_value {hw A B} (m : M hw A) (f : A -> M hw B) (s : hw) :
  value (bind m f s) = value (f (value (m s)) (final (m s))).
Proof. reflexivity. Qed.

Lemma bind_final {hw A B} (m : M hw A) (f : A -> M hw B) (s : hw) :
  final (bind m f s) = final (f (value (m s)) (final (m s))).
Proof. reflexivity. Qed.

Lemma bind_trace {hw A B} (m : M hw A) (f : A -> M hw B) (s : hw) :
  trace (bind m f s) = trace (m s) ++ trace (f (value (m s)) (final (m s))).
Proof. reflexivity. Qed.

Lemma run_eta {hw A} (r : run hw A) : r = Run (value r) (final r) (trace r).
Proof. destruct r; reflexivity. Qed.

Lemma run_ext {hw A} (r1 r2 : run hw A) :
  value r1 = value r2 -> final r1 = final r2 -> trace r1 = trace r2 -> r1 = r2.
Proof. destruct r1, r2; simpl; intros; subst; reflexivity. Qed.

Lemma while1_continue {hw R} (body : M hw (ctl R)) (fuel : nat) (s : hw) :
  value (body s) = Continue ->
  while1 (S fuel) body s =
  Run (value (while1 fuel body (final (body s))))
      (final (while1 fuel body (final (body s))))
      (trace (body s) ++ trace (while1 fuel body (final (body s)))).
Proof.
  intros Hc. cbn [while1]. unfold bind. rewrite Hc. reflexivity.
Qed.

Lemma while1_return {hw R} (body : M hw (ctl R)) (fuel : nat) (s : hw) (r : R) :
  value (body s) = Return r ->
  while1 (S fuel) body s = Run (LoopReturn r) (final (body s)) (trace (body s)).
Proof.
  intros Hc. cbn [while1]. unfold bind. rewrite Hc. cbn.
  rewrite app_nil_r. reflexivity.
Qed.

Lemma cycles_app (n m : nat) (c : list event) :
  cycles (n + m) c = cycles n c ++ cycles m c.
Proof.
  induction n as [|n IH]; simpl; [reflexivity|].
  rewrite IH, app_assoc. reflexivity.
Qed.

Lemma count_app (p : event -> bool) (t1 t2 : list event) :
  count p (t1 ++ t2) = (count p t1 + count p t2)%nat.
Proof. unfold count. rewrite filter_app, length_app. reflexivity. Qed.

Lemma filter_cycles_nil (p : event -> bool) (c : list event) (n : nat) :
  filter p c = [] -> filter p (cycles n c) = [].
Proof.
  intros Hc. induction n as [|n IH]; simpl; [reflexivity|].
  rewrite filter_app, Hc, IH. reflexivity.
Qed.

Lemma count_cycles (p : event -> bool) (c : list event) (n : nat) :
  count p (cycles n c) = (n * count p c)%nat.
Proof.
  induction n as [|n IH]; simpl; [reflexivity|].
  rewrite count_app, IH. reflexivity.
Qed.

(** ** Variant A *)

Section VariantAFacts.
Context {hw : Type} `{Zephyr hw}.
Variable b : board.

Lemma A_body_run (s : hw) :
  value (VariantA.loop_body b s) = Continue /\
  trace (VariantA.loop_body b s) = blink_cycle b.
Proof. split; reflexivity. Qed.

Lemma A_loop_run (fuel : nat) : forall s : hw,
  value (while1 fuel (VariantA.loop_body b) s) = OutOfFuel /\
  trace (while1 fuel (VariantA.loop_body b) s) = cycles fuel (blink_cycle b).
Proof.
  induction fuel as [|fuel IH]; intros s.
  - split; reflexivity.
  - rewrite while1_continue by apply A_body_run.
    destruct (IH (final (VariantA.loop_body b s))) as [Hv Ht].
    cbn [value trace]. rewrite Hv, Ht.
    split; [reflexivity|].
    destruct (A_body_run s) as [_ ->]. reflexivity.
Qed.

Lemma A_main_run (fuel : nat) (s : hw) :
  value (VariantA.main b fuel s) = Looping /\
  trace (VariantA.main b fuel s) =
    EvLogInf "Blinky Sample" :: cycles fuel (blink_cycle b).
Proof.
  unfold VariantA.main.
  rewrite bind_value, bind_value, bind_trace, bind_trace.
  set (s1 := final (LOG_INF "Blinky Sample" s)).
  destruct (A_loop_run fuel s1) as [Hv Ht].
  rewrite Hv, Ht. cbn. rewrite app_nil_r. split; reflexivity.
Qed.
Lemma A_body_full (s : hw) :
  VariantA.loop_body b s = Run Continue (blink_once b s) (blink_cycle b).
Proof. reflexivity. Qed.

Lemma A_loop_full (fuel : nat) : forall s : hw,
  while1 fuel (VariantA.loop_body b) s =
  Run OutOfFuel (blink_times b fuel s) (cycles fuel (blink_cycle b)).
Proof.
  induction fuel as [|fuel IH]; intros s; [reflexivity|].
  rewrite while1_continue by reflexivity.
  rewrite A_body_full. cbn [value final trace]. rewrite IH. reflexivity.
Qed.

Lemma A_main_full (fuel : nat) (s : hw) :
  VariantA.main b fuel s =
  Run Looping (blink_times b fuel (sys_log_inf "Blinky Sample" s))
      (EvLogInf "Blinky Sample" :: cycles fuel (blink_cycle b)).
Proof.
  unfold VariantA.main, bind. cbn [value final trace LOG_INF call fst snd].
  rewrite A_loop_full. cbn. rewrite app_nil_r. reflexivity.
Qed.
End VariantAFacts.

(** ** Variant B on any platform *)

Section VariantBFacts.
Context {hw : Type} `{Zephyr hw}.
Variable b : board.

Lemma B_body_fail (s : hw) :
  toggle_ret b s < 0 ->
  VariantB.loop_body b s =
  Run (Return tt) (after_toggle b s) [EvGpioToggle (VariantB.led b)].
Proof.
  intros Hneg. apply Z.ltb_lt in Hneg.
  unfold VariantB.loop_body, bind, gpio_pin_toggle_dt, call.
  cbn [value final trace]. fold (toggle_ret b s). rewrite Hneg.
  reflexivity.
Qed.

Lemma B_body_ok (s : hw) :
  0 <= toggle_ret b s ->
  VariantB.loop_body b s = Run Continue (after_iteration b s) (toggle_cycle b).
Proof.
  intros Hok. apply Z.ltb_ge in Hok.
  unfold VariantB.loop_body, bind, gpio_pin_toggle_dt, call.
  cbn [value final trace]. fold (toggle_ret b s). rewrite Hok.
  reflexivity.
Qed.

Lemma B_loop_split (k : nat) : forall (n : nat) (s : hw),
  (forall j, (j < k)%nat -> 0 <= toggle_ret b (after_iterations b j s)) ->
  while1 (k + n) (VariantB.loop_body b) s =
  Run (value (while1 n (VariantB.loop_body b) (after_iterations b k s)))
      (final (while1 n (VariantB.loop_body b) (after_iterations b k s)))
      (cycles k (toggle_cycle b)
       ++ trace (while1 n (VariantB.loop_body b) (after_iterations b k s))).
Proof.
  induction k as [|k IH]; intros n s Hok.
  - cbn [Nat.add after_iterations cycles app]. apply run_eta.
  - assert (H0 : 0 <= toggle_ret b s) by (apply (Hok 0%nat); lia).
    pose proof (B_body_ok s H0) as Hbody.
    cbn [Nat.add]. rewrite while1_continue by (rewrite Hbody; reflexivity).
    rewrite Hbody. cbn [final trace value].
    rewrite IH.
    + cbn [value final trace after_iterations cycles].
      rewrite app_assoc. reflexivity.
    + intros j Hj. apply (Hok (S j)). lia.
Qed.

Lemma B_loop_ok (k : nat) (s : hw) :
  (forall j, (j < k)%nat -> 0 <= toggle_ret b (after_iterations b j s)) ->
  while1 k (VariantB.loop_body b) s =
  Run OutOfFuel (after_iterations b k s) (cycles k (toggle_cycle b)).
Proof.
  intros Hok. replace k with (k + 0)%nat at 1 by lia.
  rewrite B_loop_split by assumption.
  cbn. rewrite app_nil_r. reflexivity.
Qed.

Lemma B_loop_fail (k fuel : nat) (s : hw) :
  (forall j, (j < k)%nat -> 0 <= toggle_ret b (after_iterations b j s)) ->
  toggle_ret b (after_iterations b k s) < 0 ->
  (k < fuel)%nat ->
  while1 fuel (VariantB.loop_body b) s =
  Run (LoopReturn tt) (after_toggle b (after_iterations b k s))
      (cycles k (toggle_cycle b) ++ [EvGpioToggle (VariantB.led b)]).
Proof.
  intros Hok Hneg Hlt.
  replace fuel with (k + S (fuel - S k))%nat by lia.
  rewrite B_loop_split by assumption.
  pose proof (B_body_fail _ Hneg) as Hbody.
  rewrite (while1_return _ _ _ tt) by (rewrite Hbody; reflexivity).
  rewrite Hbody. reflexivity.
Qed.

Lemma B_main_not_ready (fuel : nat) (s : hw) :
  is_ready b s = false ->
  VariantB.main b fuel s =
  Run (Exit tt) (after_ready_check b s)
      [EvPrintk greeting_fmt [CONFIG_BOARD b]; EvGpioIsReady (VariantB.led b)].
Proof.
  intros Hr.
  unfold VariantB.main, bind, printk, gpio_is_ready_dt, call.
  cbn [value final trace fst snd].
  fold greeting_fmt. fold (after_greeting b s). fold (is_ready b s).
  rewrite Hr. reflexivity.
Qed.

Lemma B_main_configure_fails (fuel : nat) (s : hw) :
  is_ready b s = true ->
  configure_ret b s < 0 ->
  VariantB.main b fuel s = Run (Exit tt) (loop_entry b s) (startup_calls b).
Proof.
  intros Hr Hc. apply Z.ltb_lt in Hc.
  unfold VariantB.main, bind, printk, gpio_is_ready_dt, gpio_pin_configure_dt, call.
  cbn [value final trace fst snd].
  fold greeting_fmt. fold (after_greeting b s). fold (is_ready b s).
  rewrite Hr. cbn [negb value final trace].
  fold (after_ready_check b s). fold (configure_ret b s).
  rewrite Hc. reflexivity.
Qed.

Lemma B_main_enters_loop (fuel : nat) (s : hw) :
  is_ready b s = true ->
  0 <= configure_ret b s ->
  VariantB.main b fuel s =
  Run (value (after_loop (value (while1 fuel (VariantB.loop_body b) (loop_entry b s)))
                         VariantB.epilogue
                         (final (while1 fuel (VariantB.loop_body b) (loop_entry b s)))))
      (final (while1 fuel (VariantB.loop_body b) (loop_entry b s)))
      (startup_calls b ++ trace (while1 fuel (VariantB.loop_body b) (loop_entry b s))).
Proof.
  intros Hr Hc. apply Z.ltb_ge in Hc.
  unfold VariantB.main, bind, printk, gpio_is_ready_dt, gpio_pin_configure_dt, call.
  cbn [value final trace fst snd].
  fold greeting_fmt. fold (after_greeting b s). fold (is_ready b s).
  rewrite Hr. cbn [negb value final trace].
  fold (after_ready_check b s). fold (configure_ret b s).
  rewrite Hc. cbn [value final trace]. fold (loop_entry b s).
  destruct (value (while1 fuel (VariantB.loop_body b) (loop_entry b s)));
    cbn; rewrite ?app_nil_r; reflexivity.
Qed.

(** Whatever the platform answers, a run starts with the greeting and the
    readiness check and makes no other diagnostic call. *)
Lemma B_loop_trace_quiet (fuel : nat) : forall s : hw,
  filter is_diagnostic (trace (while1 fuel (VariantB.loop_body b) s)) = [].
Proof.
  induction fuel as [|fuel IH]; intros s; [reflexivity|].
  destruct (Z_lt_ge_dec (toggle_ret b s) 0) as [Hneg|Hok].
  - rewrite (while1_return _ _ _ tt) by (rewrite B_body_fail by assumption; reflexivity).
    rewrite B_body_fail by assumption. reflexivity.
  - apply Z.ge_le in Hok.
    rewrite while1_continue by (rewrite B_body_ok by assumption; reflexivity).
    rewrite B_body_ok by assumption. cbn [value final trace].
    rewrite filter_app, IH. reflexivity.
Qed.

Lemma B_main_trace_shape (fuel : nat) (s : hw) :
  exists rest,
    trace (VariantB.main b fuel s) =
      EvPrintk greeting_fmt [CONFIG_BOARD b]
      :: EvGpioIsReady (VariantB.led b) :: rest /\
    filter is_diagnostic rest = [].
Proof.
  destruct (is_ready b s) eqn:Hr.
  - destruct (Z_lt_ge_dec (configure_ret b s) 0) as [Hneg|Hok].
    + rewrite B_main_configure_fails by assumption.
      eexists. split; reflexivity.
    + apply Z.ge_le in Hok. rewrite B_main_enters_loop by assumption.
      cbn [trace startup_calls app].
      eexists. split; [reflexivity|].
      cbn [filter is_diagnostic]. apply B_loop_trace_quiet.
  - rewrite B_main_not_ready by assumption.
    exists []. split; reflexivity.
Qed.
End VariantBFacts.

(** ** Variant B on the simulated board *)

Lemma line_feeds_app (s1 s2 : string) :
  line_feeds (s1 ++ s2) = (line_feeds s1 + line_feeds s2)%nat.
Proof.
  induction s1 as [|c s1 IH]; simpl; [reflexivity|].
  rewrite IH. lia.
Qed.

Lemma greeting_text (b : board) :
  vformat greeting_fmt [CONFIG_BOARD b] =
  ("Hello World! " ++ CONFIG_BOARD b ++ LF)%string.
Proof. reflexivity. Qed.

Lemma output_active_flags (dtf : Z) :
  Sim.flags_output (Z.lor dtf GPIO_OUTPUT_ACTIVE) = true /\
  Sim.init_level (Z.lor dtf GPIO_OUTPUT_ACTIVE) = Some true.
Proof.
  unfold Sim.flags_output, Sim.init_level.
  rewrite !Z.lor_spec.
  change (Z.testbit GPIO_OUTPUT_ACTIVE 17) with true.
  change (Z.testbit GPIO_OUTPUT_ACTIVE 19) with true.
  change (Z.testbit GPIO_OUTPUT_ACTIVE 20) with true.
  rewrite !orb_true_r. split; reflexivity.
Qed.

Lemma odd_S (n : nat) : Nat.odd (S n) = negb (Nat.odd n).
Proof. rewrite Nat.odd_succ, <- Nat.negb_odd. reflexivity. Qed.

Lemma alternating_length (first : bool) (n : nat) :
  List.length (alternating first n) = n.
Proof.
  revert first. induction n as [|n IH]; intros first; simpl; congruence.
Qed.

Section SimFacts.
Variable sc : Sim.script.
Variable b : board.
Hypothesis ready_ok : Sim.ready sc = true.
Hypothesis configure_ok : 0 <= Sim.configure_status sc.

Let P : Zephyr Sim.state := Sim.platform sc.

Lemma sim_is_ready (s : Sim.state) : @is_ready _ P b s = true.
Proof. exact ready_ok. Qed.

Lemma sim_configure_ret (s : Sim.state) : 0 <= @configure_ret _ P b s.
Proof.
  unfold configure_ret. cbn [sys_gpio_pin_configure_dt P Sim.platform].
  unfold Sim.configure.
  destruct (Sim.configure_status sc <? 0); exact configure_ok.
Qed.

Lemma sim_loop_entry (s : Sim.state) :
  @loop_entry _ P b s = sim_configured b s.
Proof.
  unfold loop_entry, after_ready_check, after_greeting.
  cbn [sys_gpio_pin_configure_dt sys_gpio_is_ready_dt sys_printk P Sim.platform snd].
  unfold Sim.configure.
  apply Z.ltb_ge in configure_ok. rewrite configure_ok. cbn [snd].
  destruct (output_active_flags (dt_flags (VariantB.led b))) as [-> ->].
  rewrite greeting_text. reflexivity.
Qed.

Lemma sim_toggle_ret (s : Sim.state) :
  @toggle_ret _ P b s = Sim.toggle_status sc (Sim.toggle_calls s).
Proof.
  unfold toggle_ret. cbn [sys_gpio_pin_toggle_dt P Sim.platform].
  unfold Sim.toggle.
  destruct (Sim.toggle_status sc (Sim.toggle_calls s) <? 0); reflexivity.
Qed.

Lemma sim_after_toggle (s : Sim.state) :
  0 <= Sim.toggle_status sc (Sim.toggle_calls s) ->
  Sim.pin_level (@after_toggle _ P b s) = negb (Sim.pin_level s) /\
  Sim.toggle_calls (@after_toggle _ P b s) = S (Sim.toggle_calls s).
Proof.
  intros Hk. unfold after_toggle. cbn [sys_gpio_pin_toggle_dt P Sim.platform].
  unfold Sim.toggle.
  apply Z.ltb_ge in Hk. rewrite Hk. split; reflexivity.
Qed.

Lemma sim_after_iteration (s : Sim.state) :
  0 <= Sim.toggle_status sc (Sim.toggle_calls s) ->
  @after_iteration _ P b s = sim_blinked 1 s.
Proof.
  intros Hk. unfold after_iteration, after_toggle.
  cbn [sys_gpio_pin_toggle_dt sys_k_msleep P Sim.platform].
  unfold Sim.toggle.
  apply Z.ltb_ge in Hk. rewrite Hk.
  unfold sim_blinked, Sim.sleep_ms, SLEEP_TIME_MS. cbn.
  destruct s as [o l c r lc lw u co]; cbn.
  f_equal; try reflexivity; try lia.
  all: destruct l; reflexivity.
Qed.

Lemma sim_blinked_step (k : nat) (s : Sim.state) :
  sim_blinked k (sim_blinked 1 s) = sim_blinked (S k) s.
Proof.
  destruct s as [o l c r lc lw u co]. unfold sim_blinked. cbn [Sim.pin_is_output
    Sim.pin_level Sim.toggle_calls Sim.recorded_levels Sim.led_calls
    Sim.led_writes Sim.uptime_ms Sim.console alternating].
  f_equal.
  - change (Nat.odd 1) with true.
    rewrite (Nat.odd_succ k), <- (Nat.negb_odd k).
    destruct l, (Nat.odd k); reflexivity.
  - lia.
  - rewrite <- app_assoc. cbn [app]. rewrite xorb_true_r. reflexivity.
  - lia.
Qed.

Lemma sim_blinked_0 (s : Sim.state) : sim_blinked 0 s = s.
Proof.
  destruct s as [o l c r lc lw u co]. unfold sim_blinked. cbn.
  rewrite app_nil_r, xorb_false_r, Nat.add_0_r, Z.add_0_r. reflexivity.
Qed.

Lemma sim_after_iterations (k : nat) : forall s : Sim.state,
  (forall j, (j < k)%nat ->
             0 <= Sim.toggle_status sc (Sim.toggle_calls s + j)) ->
  @after_iterations _ P b k s = sim_blinked k s.
Proof.
  induction k as [|k IH]; intros s Hok.
  - symmetry. apply sim_blinked_0.
  - assert (H0 : 0 <= Sim.toggle_status sc (Sim.toggle_calls s)).
    { specialize (Hok 0%nat). rewrite Nat.add_0_r in Hok. apply Hok. lia. }
    cbn [after_iterations]. rewrite sim_after_iteration by assumption.
    rewrite IH.
    + apply sim_blinked_step.
    + intros j Hj. cbn [sim_blinked Sim.toggle_calls].
      replace (Sim.toggle_calls s + 1 + j)%nat
        with (Sim.toggle_calls s + S j)%nat by lia.
      apply Hok. lia.
Qed.

Lemma sim_toggles_ok (k : nat) (s : Sim.state) :
  (forall j, (j < k)%nat ->
             0 <= Sim.toggle_status sc (Sim.toggle_calls s + j)) ->
  forall j, (j < k)%nat ->
            0 <= @toggle_ret _ P b (@after_iterations _ P b j (sim_configured b s)).
Proof.
  intros Hok j Hj.
  rewrite sim_toggle_ret, sim_after_iterations.
  - cbn [sim_blinked sim_configured Sim.toggle_calls]. apply Hok. assumption.
  - intros i Hi. cbn [sim_configured Sim.toggle_calls]. apply Hok. lia.
Qed.

Lemma sim_main_run (n : nat) (s : Sim.state) :
  (forall j, (j < n)%nat ->
             0 <= Sim.toggle_status sc (Sim.toggle_calls s + j)) ->
  @VariantB.main _ P b n s =
  Run Looping (sim_blinked n (sim_configured b s))
      (startup_calls b ++ cycles n (toggle_cycle b)).
Proof.
  intros Hok.
  rewrite B_main_enters_loop by (apply sim_is_ready || apply sim_configure_ret).
  rewrite sim_loop_entry.
  rewrite B_loop_ok by (apply sim_toggles_ok; assumption).
  cbn [value final trace after_loop ret].
  rewrite sim_after_iterations by (intros; apply Hok; assumption).
  reflexivity.
Qed.
End SimFacts.

(** The console of the simulated board, whatever the script. *)

Section SimConsole.
Variable sc : Sim.script.
Variable b : board.

Let P : Zephyr Sim.state := Sim.platform sc.

Lemma sim_toggle_console (s : Sim.state) :
  Sim.console (@after_toggle _ P b s) = Sim.console s.
Proof.
  unfold after_toggle. cbn [sys_gpio_pin_toggle_dt P Sim.platform].
  unfold Sim.toggle.
  destruct (Sim.toggle_status sc (Sim.toggle_calls s) <? 0); reflexivity.
Qed.

Lemma sim_loop_console (fuel : nat) : forall s : Sim.state,
  Sim.console (final (while1 fuel (@VariantB.loop_body _ P b) s)) = Sim.console s.
Proof.
  induction fuel as [|fuel IH]; intros s; [reflexivity|].
  destruct (Z_lt_ge_dec (@toggle_ret _ P b s) 0) as [Hneg|Hok].
  - rewrite (while1_return _ _ _ tt) by (rewrite B_body_fail by assumption; reflexivity).
    rewrite B_body_fail by assumption. apply sim_toggle_console.
  - apply Z.ge_le in Hok.
    rewrite while1_continue by (rewrite B_body_ok by assumption; reflexivity).
    rewrite B_body_ok by assumption. cbn [value final trace].
    rewrite IH. unfold after_iteration.
    cbn [sys_k_msleep P Sim.platform Sim.sleep_ms snd Sim.console].
    apply sim_toggle_console.
Qed.

Lemma sim_loop_entry_console (s : Sim.state) :
  Sim.console (@loop_entry _ P b s) =
  Sim.console s ++ [("Hello World! " ++ CONFIG_BOARD b ++ LF)%string].
Proof.
  unfold loop_entry, after_ready_check, after_greeting.
  cbn [sys_gpio_pin_configure_dt sys_gpio_is_ready_dt sys_printk P Sim.platform snd].
  unfold Sim.configure.
  destruct (Sim.configure_status sc <? 0); reflexivity.
Qed.

Lemma sim_main_console (fuel : nat) (s : Sim.state) :
  Sim.console (final (@VariantB.main _ P b fuel s)) =
  Sim.console s ++ [("Hello World! " ++ CONFIG_BOARD b ++ LF)%string].
Proof.
  destruct (@is_ready _ P b s) eqn:Hr.
  - destruct (Z_lt_ge_dec (@configure_ret _ P b s) 0) as [Hneg|Hok].
    + rewrite B_main_configure_fails by assumption.
      apply sim_loop_entry_console.
    + apply Z.ge_le in Hok. rewrite B_main_enters_loop by assumption.
      cbn [final]. rewrite sim_loop_console. apply sim_loop_entry_console.
  - rewrite B_main_not_ready by assumption. reflexivity.
Qed.
End SimConsole.

(** Variant A on the simulated board, whatever the script. *)

Section SimVariantA.
Variable sc : Sim.script.
Variable b : board.

Let P : Zephyr Sim.state := Sim.platform sc.

Lemma sim_blink_once (s : Sim.state) :
  Sim.uptime_ms (@blink_once _ P b s) = Sim.uptime_ms s + 2000 /\
  Sim.led_calls (@blink_once _ P b s) = (Sim.led_calls s + 2)%nat /\
  Sim.console (@blink_once _ P b s) = Sim.console s.
Proof.
  unfold blink_once, SLEEP_TIME_MS.
  cbn [sys_k_sleep sys_led_on sys_led_off P Sim.platform Sim.sleep Sim.sleep_ms
       Sim.led_write snd Sim.uptime_ms Sim.led_calls Sim.console].
  repeat split; lia.
Qed.

Lemma sim_blink_times (n : nat) : forall s : Sim.state,
  Sim.uptime_ms (@blink_times _ P b n s) = Sim.uptime_ms s + 2000 * Z.of_nat n /\
  Sim.led_calls (@blink_times _ P b n s) = (Sim.led_calls s + 2 * n)%nat /\
  Sim.console (@blink_times _ P b n s) = Sim.console s.
Proof.
  induction n as [|n IH]; intros s.
  - cbn [blink_times]. repeat split; lia.
  - cbn [blink_times].
    destruct (IH (@blink_once _ P b s)) as (Hu & Hl & Hc).
    destruct (sim_blink_once s) as (Hu1 & Hl1 & Hc1).
    rewrite Hu, Hl, Hc, Hu1, Hl1, Hc1. repeat split; lia.
Qed.

Lemma sim_A_main_console (fuel : nat) (s : Sim.state) :
  Sim.console (final (@VariantA.main _ P b fuel s)) =
  Sim.console s ++ ["Blinky Sample"%string].
Proof.
  rewrite A_main_full. cbn [final].
  destruct (sim_blink_times fuel (@sys_log_inf _ P "Blinky Sample" s))
    as (_ & _ & Hc).
  rewrite Hc. reflexivity.
Qed.
End SimVariantA.

Lemma alternating_seq (N : nat) : forall (start : nat) (l : bool),
  map (fun j => xorb l (Nat.odd j)) (seq start N) =
  alternating (xorb l (Nat.odd start)) N.
Proof.
  induction N as [|N IH]; intros start l; [reflexivity|].
  cbn [seq map alternating]. rewrite IH, odd_S.
  destruct l, (Nat.odd start); reflexivity.
Qed.

(** ** Runs of the simulated board *)

Example vformat_board :
  vformat "Hello World! %s" ["nrf52840dk"%string] = "Hello World! nrf52840dk"%string.
Proof. reflexivity. Qed.

Example vformat_no_directive :
  vformat "Blinky Sample" [] = "Blinky Sample"%string.
Proof. reflexivity. Qed.

Example A_run_with_failing_leds :
  @VariantA.main _ (Sim.platform Sim.leds_fail) Sim.feather 2 Sim.power_on =
  Run Looping
      (Sim.State false false 0 [] 4 [] 4000 ["Blinky Sample"%string])
      (EvLogInf "Blinky Sample" :: cycles 2 (blink_cycle Sim.feather)).
Proof. reflexivity. Qed.

Example A_run_with_working_leds :
  Sim.led_writes
    (final (@VariantA.main _ (Sim.platform Sim.healthy) Sim.feather 2 Sim.power_on))
  = [(2, true); (2, false); (2, true); (2, false)].
Proof. reflexivity. Qed.

Example B_run_not_ready :
  @VariantB.main _ (Sim.platform Sim.not_ready) Sim.feather 9 Sim.power_on =
  Run (Exit tt)
      (Sim.State false false 0 [] 0 [] 0
         [("Hello World! circuitdojo_feather_nrf9160" ++ LF)%string])
      [EvPrintk greeting_fmt ["circuitdojo_feather_nrf9160"%string];
       EvGpioIsReady (led0 Sim.feather)].
Proof. reflexivity. Qed.

Example B_run_healthy :
  final (@VariantB.main _ (Sim.platform Sim.healthy) Sim.feather 3 Sim.power_on) =
  Sim.State true false 3 [true; false; true] 0 [] 3000
    [("Hello World! circuitdojo_feather_nrf9160" ++ LF)%string].
Proof. reflexivity. Qed.

(** * The claims *)

(** C1.  Variant B, after a successful readiness check and configuration:
    every iteration starts with a toggle.  While the toggles succeed
    (status not negative) each is followed by a sleep of 1000 ms and the
    next iteration; the first toggle that reports a negative status is the
    last call of the run: the entry point returns at once, with no retry, no
    further toggle and no sleep after it.  Here [k] toggles succeed, and if
    the bound allows one more iteration its toggle fails. *)
Theorem B_toggle_failure_ends_run :
  forall (hw : Type) (P : Zephyr hw) (b : board) (s : hw) (k fuel : nat),
    is_ready b s = true ->
    0 <= configure_ret b s ->
    (forall j, (j < k)%nat ->
               0 <= toggle_ret b (after_iterations b j (loop_entry b s))) ->
    (k <= fuel)%nat ->
    ((k < fuel)%nat -> toggle_ret b (after_iterations b k (loop_entry b s)) < 0) ->
    VariantB.main b fuel s =
    if (k <? fuel)%nat
    then Run (Exit tt)
             (after_toggle b (after_iterations b k (loop_entry b s)))
             (startup_calls b
              ++ cycles k [EvGpioToggle (led0 b); EvMsleep 1000]
              ++ [EvGpioToggle (led0 b)])
    else Run Looping
             (after_iterations b k (loop_entry b s))
             (startup_calls b
              ++ cycles k [EvGpioToggle (led0 b); EvMsleep 1000]).
Proof.
  intros hw P b s k fuel Hready Hcfg Hok Hle Hfail.
  rewrite B_main_enters_loop by assumption.
  destruct (k <? fuel)%nat eqn:Hk.
  - apply Nat.ltb_lt in Hk.
    rewrite (B_loop_fail b k fuel) by auto.
    reflexivity.
  - apply Nat.ltb_ge in Hk.
    assert (fuel = k) as -> by lia.
    rewrite B_loop_ok by assumption.
    reflexivity.
Qed.

Lemma B_toggle_failure_ends_run_witness :
  @VariantB.main _ (Sim.platform Sim.third_toggle_fails) Sim.feather 5 Sim.power_on =
  Run (Exit tt)
      (Sim.State true true 3 [true; false] 0 [] 2000
         [("Hello World! circuitdojo_feather_nrf9160" ++ LF)%string])
      [EvPrintk greeting_fmt ["circuitdojo_feather_nrf9160"%string];
       EvGpioIsReady (led0 Sim.feather);
       EvGpioConfigure (led0 Sim.feather) GPIO_OUTPUT_ACTIVE;
       EvGpioToggle (led0 Sim.feather); EvMsleep 1000;
       EvGpioToggle (led0 Sim.feather); EvMsleep 1000;
       EvGpioToggle (led0 Sim.feather)].
Proof.
  refine (eq_trans
    (B_toggle_failure_ends_run _ (Sim.platform Sim.third_toggle_fails)
       Sim.feather Sim.power_on 2 5 _ _ _ _ _) _).
  - reflexivity.
  - vm_compute. discriminate.
  - intros j Hj.
    destruct j as [|[|j]]; [vm_compute; discriminate .. | lia].
  - lia.
  - intros _. reflexivity.
  - reflexivity.
Defined.

(** C2.  Variant A: one iteration is exactly "LED 2 on, sleep 1000 ms, LED 2
    off, sleep 1000 ms": it makes these four calls, each in the hardware
    state the one before it left, and ends by continuing the loop.  A run
    of any number of iterations is the startup log line followed by that
    many such iterations, and is still in the loop.  No result of the on
    and off calls is read: this holds on every platform, whatever its calls
    return, so two platforms give the same calls; on the simulated board,
    whatever the LED calls return, [fuel] iterations make [2 * fuel] LED
    calls and block for [2000 * fuel] ms. *)
Theorem A_loop_is_blink_cycle :
  forall (hw : Type) (P : Zephyr hw) (b : board) (fuel : nat) (s : hw)
         (sc : Sim.script) (s0 : Sim.state),
    VariantA.loop_body b s =
      Run Continue
          (snd (sys_k_sleep (K_MSEC 1000)
             (snd (sys_led_off (npm1300_leds b) 2
                (snd (sys_k_sleep (K_MSEC 1000)
                   (snd (sys_led_on (npm1300_leds b) 2 s))))))))
          [EvLedOn (npm1300_leds b) 2; EvSleep (K_MSEC 1000);
           EvLedOff (npm1300_leds b) 2; EvSleep (K_MSEC 1000)] /\
    VariantA.main b fuel s =
      Run Looping
          (blink_times b fuel (sys_log_inf "Blinky Sample" s))
          (EvLogInf "Blinky Sample"
           :: cycles fuel [EvLedOn (npm1300_leds b) 2; EvSleep (K_MSEC 1000);
                           EvLedOff (npm1300_leds b) 2; EvSleep (K_MSEC 1000)]) /\
    final (VariantA.main b (S fuel) s) =
      final (VariantA.loop_body b (final (VariantA.main b fuel s))) /\
    (forall (hw' : Type) (P' : Zephyr hw') (s' : hw'),
        trace (VariantA.main b fuel s') = trace (VariantA.main b fuel s)) /\
    Sim.led_calls (final (@VariantA.main _ (Sim.platform sc) b fuel s0)) =
      (Sim.led_calls s0 + 2 * fuel)%nat /\
    Sim.uptime_ms (final (@VariantA.main _ (Sim.platform sc) b fuel s0)) =
      Sim.uptime_ms s0 + 2000 * Z.of_nat fuel.
Proof.
  intros hw P b fuel s sc s0.
  split; [apply A_body_full|].
  split; [apply A_main_full|].
  split.
  - rewrite !A_main_full, A_body_full. cbn [final].
    generalize (sys_log_inf "Blinky Sample" s).
    induction fuel as [|fuel IH]; intros t; [reflexivity|].
    cbn [blink_times] in *. apply IH.
  - split.
    + intros hw' P' s'. rewrite !A_main_full. reflexivity.
    + rewrite A_main_full. cbn [final].
      destruct (sim_blink_times sc b fuel
                  (@sys_log_inf _ (Sim.platform sc) "Blinky Sample" s0))
        as (Hu & Hl & _).
      rewrite Hu, Hl. split; reflexivity.
Qed.

(** C3.  Variant B: when the readiness check fails the entry point returns
    at once, for every bound on the loop; the only calls made are the
    greeting and the readiness check, so there is no configuration call, no
    toggle call and no sleep. *)
Theorem B_not_ready_returns :
  forall (hw : Type) (P : Zephyr hw) (b : board) (fuel : nat) (s : hw),
    is_ready b s = false ->
    value (VariantB.main b fuel s) = Exit tt /\
    final (VariantB.main b fuel s) = after_ready_check b s /\
    trace (VariantB.main b fuel s) =
      [EvPrintk greeting_fmt [CONFIG_BOARD b]; EvGpioIsReady (led0 b)] /\
    count is_configure (trace (VariantB.main b fuel s)) = 0%nat /\
    count is_toggle (trace (VariantB.main b fuel s)) = 0%nat /\
    count is_sleep (trace (VariantB.main b fuel s)) = 0%nat.
Proof.
  intros hw P b fuel s Hr.
  rewrite B_main_not_ready by assumption.
  repeat split; reflexivity.
Qed.

Lemma B_not_ready_returns_witness :
  value (@VariantB.main _ (Sim.platform Sim.not_ready) Sim.feather 7 Sim.power_on)
  = Exit tt /\
  count is_toggle
    (trace (@VariantB.main _ (Sim.platform Sim.not_ready) Sim.feather 7 Sim.power_on))
  = 0%nat.
Proof.
  pose proof (B_not_ready_returns _ (Sim.platform Sim.not_ready)
                Sim.feather 7 Sim.power_on eq_refl) as Hw.
  split; [apply Hw | apply Hw].
Defined.

(** C4.  Variant B: the pin is configured with [GPIO_OUTPUT_ACTIVE], which
    makes it an output at the active level; when that call reports a
    negative status the entry point returns at once, for every bound on the
    loop: the calls made are the greeting, the readiness check and the
    configuration, and no toggle or sleep. *)
Theorem B_configure_failure_returns :
  forall (hw : Type) (P : Zephyr hw) (b : board) (fuel : nat) (s : hw),
    is_ready b s = true ->
    configure_ret b s < 0 ->
    value (VariantB.main b fuel s) = Exit tt /\
    final (VariantB.main b fuel s) = loop_entry b s /\
    trace (VariantB.main b fuel s) =
      [EvPrintk greeting_fmt [CONFIG_BOARD b]; EvGpioIsReady (led0 b);
       EvGpioConfigure (led0 b) GPIO_OUTPUT_ACTIVE] /\
    count is_toggle (trace (VariantB.main b fuel s)) = 0%nat /\
    count is_sleep (trace (VariantB.main b fuel s)) = 0%nat /\
    Sim.flags_output (Z.lor (dt_flags (led0 b)) GPIO_OUTPUT_ACTIVE) = true /\
    Sim.init_level (Z.lor (dt_flags (led0 b)) GPIO_OUTPUT_ACTIVE) = Some true.
Proof.
  intros hw P b fuel s Hr Hc.
  rewrite B_main_configure_fails by assumption.
  destruct (output_active_flags (dt_flags (led0 b))) as [Ho Hl].
  repeat split; solve [reflexivity | assumption].
Qed.

Lemma B_configure_failure_returns_witness :
  trace (@VariantB.main _ (Sim.platform Sim.configure_fails) Sim.feather 7
           Sim.power_on) =
    [EvPrintk greeting_fmt [CONFIG_BOARD Sim.feather];
     EvGpioIsReady (led0 Sim.feather);
     EvGpioConfigure (led0 Sim.feather) GPIO_OUTPUT_ACTIVE] /\
  Sim.recorded_levels
    (final (@VariantB.main _ (Sim.platform Sim.configure_fails) Sim.feather 7
              Sim.power_on)) = [].
Proof.
  assert (Hr : @is_ready _ (Sim.platform Sim.configure_fails) Sim.feather
                 Sim.power_on = true) by reflexivity.
  assert (Hc : @configure_ret _ (Sim.platform Sim.configure_fails) Sim.feather
                 Sim.power_on < 0) by (vm_compute; reflexivity).
  pose proof (B_configure_failure_returns _ (Sim.platform Sim.configure_fails)
                Sim.feather 7 Sim.power_on Hr Hc) as Hw.
  split; [apply Hw | reflexivity].
Defined.

(** C5.  Variant B on a simulated board that is ready and configures, and
    whose toggles of the first [N] iterations succeed: after [N] iterations
    the run is still in its loop, it has made [N] toggle calls, and the
    board has recorded [N] new levels, one per toggle, that alternate
    starting from active.  The levels the [N] toggle calls find on the pin
    alternate starting from active, as recorded, and the levels they drive
    alternate starting from inactive. *)
Theorem B_recorded_levels_alternate :
  forall (sc : Sim.script) (b : board) (N : nat) (s0 : Sim.state),
    Sim.ready sc = true ->
    0 <= Sim.configure_status sc ->
    (forall j, (j < N)%nat ->
               0 <= Sim.toggle_status sc (Sim.toggle_calls s0 + j)) ->
    value (@VariantB.main _ (Sim.platform sc) b N s0) = Looping /\
    count is_toggle (trace (@VariantB.main _ (Sim.platform sc) b N s0)) = N /\
    Sim.recorded_levels (final (@VariantB.main _ (Sim.platform sc) b N s0)) =
      Sim.recorded_levels s0 ++ alternating true N /\
    List.length (alternating true N) = N /\
    map (fun j => Sim.pin_level
                    (@after_iterations _ (Sim.platform sc) b j
                       (@loop_entry _ (Sim.platform sc) b s0)))
        (seq 0 N) = alternating true N /\
    map (fun j => Sim.pin_level
                    (@after_toggle _ (Sim.platform sc) b
                       (@after_iterations _ (Sim.platform sc) b j
                          (@loop_entry _ (Sim.platform sc) b s0))))
        (seq 0 N) = alternating false N.
Proof.
  intros sc b N s0 Hr Hc Ht.
  rewrite (sim_main_run sc b Hr Hc N s0 Ht).
  cbn [value final trace].
  rewrite (sim_loop_entry sc b Hc).
  assert (Hst : forall j, (j < N)%nat ->
            @after_iterations _ (Sim.platform sc) b j (sim_configured b s0)
            = sim_blinked j (sim_configured b s0)).
  { intros j Hj. apply sim_after_iterations.
    intros i Hi. cbn [sim_configured Sim.toggle_calls]. apply Ht. lia. }
  split; [reflexivity|].
  split; [rewrite count_app, count_cycles; cbn; lia|].
  split; [reflexivity|].
  split; [apply alternating_length|].
  split.
  - transitivity (map (fun j => xorb true (Nat.odd j)) (seq 0 N));
      [|apply (alternating_seq N 0 true)].
    apply map_ext_in. intros j Hj. apply in_seq in Hj.
    rewrite Hst by lia. reflexivity.
  - transitivity (map (fun j => xorb false (Nat.odd j)) (seq 0 N));
      [|apply (alternating_seq N 0 false)].
    apply map_ext_in. intros j Hj. apply in_seq in Hj.
    rewrite Hst by lia.
    destruct (sim_after_toggle sc b (sim_blinked j (sim_configured b s0)))
      as [Hl _].
    { cbn [sim_blinked sim_configured Sim.toggle_calls]. apply Ht. lia. }
    rewrite Hl. cbn [sim_blinked sim_configured Sim.pin_level].
    destruct (Nat.odd j); reflexivity.
Qed.

Lemma B_recorded_levels_alternate_witness :
  Sim.recorded_levels
    (final (@VariantB.main _ (Sim.platform Sim.third_toggle_fails) Sim.feather 2
              Sim.power_on))
  = [true; false].
Proof.
  assert (Hc : 0 <= Sim.configure_status Sim.third_toggle_fails) by (cbn; lia).
  assert (Ht : forall j, (j < 2)%nat ->
             0 <= Sim.toggle_status Sim.third_toggle_fails
                    (Sim.toggle_calls Sim.power_on + j)).
  { intros j Hj. destruct j as [|[|j]]; [cbn; lia | cbn; lia | lia]. }
  destruct (B_recorded_levels_alternate Sim.third_toggle_fails Sim.feather 2
              Sim.power_on eq_refl Hc Ht) as (_ & _ & Hl & _).
  exact Hl.
Defined.

(** C6.  Variant B on a simulated board that is ready and configures: when
    the toggles of the first [n + 1] iterations succeed, iteration [n + 1]
    completes and leaves the pin at the inverse of the level iteration [n]
    left; if the toggle of the next iteration succeeds too, that iteration
    brings the pin back to the level iteration [n] left.  In any state, a
    toggle that succeeds inverts the level, and two in a row that succeed
    give back the level they started from. *)
Theorem B_iteration_inverts_level :
  forall (sc : Sim.script) (b : board) (n : nat) (s0 s : Sim.state),
    Sim.ready sc = true ->
    0 <= Sim.configure_status sc ->
    (forall j, (j <= n)%nat ->
               0 <= Sim.toggle_status sc (Sim.toggle_calls s0 + j)) ->
    value (@VariantB.main _ (Sim.platform sc) b (S n) s0) = Looping /\
    Sim.pin_level (final (@VariantB.main _ (Sim.platform sc) b (S n) s0)) =
      negb (Sim.pin_level (final (@VariantB.main _ (Sim.platform sc) b n s0))) /\
    (0 <= Sim.toggle_status sc (Sim.toggle_calls s0 + S n) ->
     Sim.pin_level (final (@VariantB.main _ (Sim.platform sc) b (S (S n)) s0)) =
       Sim.pin_level (final (@VariantB.main _ (Sim.platform sc) b n s0))) /\
    (0 <= Sim.toggle_status sc (Sim.toggle_calls s) ->
     Sim.pin_level (@after_toggle _ (Sim.platform sc) b s) =
       negb (Sim.pin_level s)) /\
    (0 <= Sim.toggle_status sc (Sim.toggle_calls s) ->
     0 <= Sim.toggle_status sc (S (Sim.toggle_calls s)) ->
     Sim.pin_level (@after_toggle _ (Sim.platform sc) b
                      (@after_toggle _ (Sim.platform sc) b s)) = Sim.pin_level s).
Proof.
  intros sc b n s0 s Hr Hc Ht.
  assert (Hn : forall j, (j < n)%nat ->
             0 <= Sim.toggle_status sc (Sim.toggle_calls s0 + j))
    by (intros; apply Ht; lia).
  assert (HSn : forall j, (j < S n)%nat ->
             0 <= Sim.toggle_status sc (Sim.toggle_calls s0 + j))
    by (intros; apply Ht; lia).
  rewrite (sim_main_run sc b Hr Hc (S n) s0 HSn).
  rewrite (sim_main_run sc b Hr Hc n s0 Hn).
  cbn [value final sim_blinked sim_configured Sim.pin_level].
  split; [reflexivity|].
  split; [rewrite odd_S; destruct (Nat.odd n); reflexivity|].
  split.
  - intros Hnext.
    rewrite (sim_main_run sc b Hr Hc (S (S n)) s0).
    + cbn [final sim_blinked sim_configured Sim.pin_level].
      rewrite !odd_S. destruct (Nat.odd n); reflexivity.
    + intros j Hj. destruct (Nat.eq_dec j (S n)) as [->|Hne];
        [assumption | apply Ht; lia].
  - split.
    + intros H1. apply (sim_after_toggle sc b s H1).
    + intros H1 H2.
      destruct (sim_after_toggle sc b s H1) as [Hl Hcalls].
      destruct (sim_after_toggle sc b (@after_toggle _ (Sim.platform sc) b s))
        as [Hl2 _].
      { rewrite Hcalls. assumption. }
      rewrite Hl2, Hl. apply negb_involutive.
Qed.

Lemma B_iteration_inverts_level_witness :
  Sim.pin_level
    (final (@VariantB.main _ (Sim.platform Sim.third_toggle_fails) Sim.feather 2
              Sim.power_on))
  = negb (Sim.pin_level
    (final (@VariantB.main _ (Sim.platform Sim.third_toggle_fails) Sim.feather 1
              Sim.power_on))).
Proof.
  assert (Hc : 0 <= Sim.configure_status Sim.third_toggle_fails) by (cbn; lia).
  assert (Ht : forall j, (j <= 1)%nat ->
             0 <= Sim.toggle_status Sim.third_toggle_fails
                    (Sim.toggle_calls Sim.power_on + j)).
  { intros j Hj. destruct j as [|[|j]]; [cbn; lia | cbn; lia | lia]. }
  destruct (B_iteration_inverts_level Sim.third_toggle_fails Sim.feather 1
              Sim.power_on Sim.power_on eq_refl Hc Ht) as (_ & Hl & _).
  exact Hl.
Defined.

(** C7.  Variant A: for every bound, the loop uses the whole bound: it is
    never left by [break] or [return], so the entry point never returns and
    the statements after the loop are not reached; those statements, were
    the loop left, return 0. *)
Theorem A_main_never_returns :
  forall (hw : Type) (P : Zephyr hw) (b : board) (fuel : nat) (s : hw),
    value (while1 fuel (VariantA.loop_body b) s) = OutOfFuel /\
    value (VariantA.main b fuel s) = Looping /\
    (forall code : Z, value (VariantA.main b fuel s) <> Exit code) /\
    count is_sleep (trace (VariantA.main b fuel s)) = (2 * fuel)%nat /\
    value (after_loop Broke VariantA.epilogue s) = Exit 0.
Proof.
  intros hw P b fuel s.
  destruct (A_loop_run b fuel s) as [Hl _].
  destruct (A_main_run b fuel s) as [Hv Ht].
  repeat split; try assumption.
  - intros code Hx. rewrite Hv in Hx. discriminate Hx.
  - rewrite Ht.
    change (EvLogInf "Blinky Sample" :: cycles fuel (blink_cycle b))
      with ([EvLogInf "Blinky Sample"] ++ cycles fuel (blink_cycle b)).
    rewrite count_app, count_cycles. cbn. lia.
Qed.

(** C8.  At startup Variant A logs "Blinky Sample" and Variant B prints
    "Hello World! ", the board name and a line feed; on every platform and
    for every bound that call is the first of the run and the only
    diagnostic call in it.  The printed text has one line feed more than
    the board name has.  The platform's log routine receives the message
    in the initial state, before the first iteration; on the simulated
    board, whatever the script and the bound, the console gains exactly
    that one line. *)
Theorem startup_diagnostics :
  forall (hw : Type) (P : Zephyr hw) (b : board) (fuel : nat) (s : hw)
         (sc : Sim.script) (s0 : Sim.state),
    hd_error (trace (VariantA.main b fuel s)) = Some (EvLogInf "Blinky Sample") /\
    filter is_diagnostic (trace (VariantA.main b fuel s)) =
      [EvLogInf "Blinky Sample"] /\
    hd_error (trace (VariantB.main b fuel s)) =
      Some (EvPrintk ("Hello World! %s" ++ LF)%string [CONFIG_BOARD b]) /\
    filter is_diagnostic (trace (VariantB.main b fuel s)) =
      [EvPrintk ("Hello World! %s" ++ LF)%string [CONFIG_BOARD b]] /\
    vformat ("Hello World! %s" ++ LF)%string [CONFIG_BOARD b] =
      ("Hello World! " ++ CONFIG_BOARD b ++ LF)%string /\
    line_feeds (vformat ("Hello World! %s" ++ LF)%string [CONFIG_BOARD b]) =
      S (line_feeds (CONFIG_BOARD b)) /\
    final (VariantA.main b fuel s) =
      blink_times b fuel (sys_log_inf "Blinky Sample" s) /\
    Sim.console (final (@VariantA.main _ (Sim.platform sc) b fuel s0)) =
      Sim.console s0 ++ ["Blinky Sample"%string] /\
    Sim.console (final (@VariantB.main _ (Sim.platform sc) b fuel s0)) =
      Sim.console s0 ++ [("Hello World! " ++ CONFIG_BOARD b ++ LF)%string].
Proof.
  intros hw P b fuel s sc s0.
  destruct (A_main_run b fuel s) as [_ Ha].
  destruct (B_main_trace_shape b fuel s) as (rest & Hb & Hq).
  rewrite Ha, Hb. cbn [hd_error filter is_diagnostic].
  rewrite Hq, (filter_cycles_nil is_diagnostic (blink_cycle b) fuel eq_refl).
  repeat split.
  - change (vformat ("Hello World! %s" ++ LF) [CONFIG_BOARD b])
      with ("Hello World! " ++ (CONFIG_BOARD b ++ LF))%string.
    rewrite !line_feeds_app. cbn. lia.
  - rewrite A_main_full. reflexivity.
  - apply sim_A_main_console.
  - apply sim_main_console.
Qed.

(** C9.  Variant B on a simulated board that is ready and configures:
    configuration leaves the pin active, and when the first [k] toggles
    succeed the run has made [k] toggle calls after [k] iterations and the
    pin is active exactly when [k] is even, whatever a later toggle does.
    If the toggle that follows succeeds it drives the pin to the opposite
    level; so the first toggle, when it succeeds, drives the pin
    inactive. *)
Theorem B_level_parity :
  forall (sc : Sim.script) (b : board) (k : nat) (s0 : Sim.state),
    Sim.ready sc = true ->
    0 <= Sim.configure_status sc ->
    (forall j, (j < k)%nat ->
               0 <= Sim.toggle_status sc (Sim.toggle_calls s0 + j)) ->
    Sim.pin_level (@loop_entry _ (Sim.platform sc) b s0) = true /\
    count is_toggle (trace (@VariantB.main _ (Sim.platform sc) b k s0)) = k /\
    (Sim.pin_level (final (@VariantB.main _ (Sim.platform sc) b k s0)) = true
     <-> Nat.Even k) /\
    Sim.pin_level (final (@VariantB.main _ (Sim.platform sc) b k s0)) =
      Nat.even k /\
    (0 <= Sim.toggle_status sc (Sim.toggle_calls s0 + k) ->
     Sim.pin_level
       (@after_toggle _ (Sim.platform sc) b
          (final (@VariantB.main _ (Sim.platform sc) b k s0))) = Nat.odd k) /\
    (0 <= Sim.toggle_status sc (Sim.toggle_calls s0) ->
     Sim.pin_level
       (@after_toggle _ (Sim.platform sc) b
          (@loop_entry _ (Sim.platform sc) b s0)) = false).
Proof.
  intros sc b k s0 Hr Hc Ht.
  rewrite (sim_main_run sc b Hr Hc k s0 Ht), (sim_loop_entry sc b Hc).
  cbn [value final trace].
  split; [reflexivity|].
  split; [rewrite count_app, count_cycles; cbn; lia|].
  split; [|split; [|split]].
  - cbn [sim_blinked sim_configured Sim.pin_level].
    rewrite <- Nat.even_spec, <- Nat.negb_odd.
    destruct (Nat.odd k); cbn; intuition congruence.
  - cbn [sim_blinked sim_configured Sim.pin_level].
    rewrite <- Nat.negb_odd. destruct (Nat.odd k); reflexivity.
  - intros Hnext.
    destruct (sim_after_toggle sc b (sim_blinked k (sim_configured b s0)))
      as [Hl _]; [exact Hnext|].
    rewrite Hl. cbn [sim_blinked sim_configured Sim.pin_level].
    destruct (Nat.odd k); reflexivity.
  - intros Hfirst.
    destruct (sim_after_toggle sc b (sim_configured b s0)) as [Hl _];
      [exact Hfirst|].
    rewrite Hl. reflexivity.
Qed.

Lemma B_level_parity_witness :
  Sim.pin_level
    (final (@VariantB.main _ (Sim.platform Sim.third_toggle_fails) Sim.feather 2
              Sim.power_on))
  = true /\
  Sim.pin_level
    (final (@VariantB.main _ (Sim.platform Sim.third_toggle_fails) Sim.feather 1
              Sim.power_on))
  = false.
Proof.
  assert (Hc : 0 <= Sim.configure_status Sim.third_toggle_fails) by (cbn; lia).
  assert (Ht : forall j, (j < 2)%nat ->
             0 <= Sim.toggle_status Sim.third_toggle_fails
                    (Sim.toggle_calls Sim.power_on + j)).
  { intros j Hj. destruct j as [|[|j]]; [cbn; lia | cbn; lia | lia]. }
  destruct (B_level_parity Sim.third_toggle_fails Sim.feather 2 Sim.power_on
              eq_refl Hc Ht) as (_ & _ & H2 & _).
  split; [|reflexivity].
  apply H2. exists 1%nat. reflexivity.
Defined.

(** C10.  Variant B: on every platform, for every initial state and every
    bound, the first call of a run is the greeting [printk] and the second
    is the readiness check, and the run has that one diagnostic call; so the
    greeting is written whether or not the device is ready and whether or
    not configuration succeeds.  On the simulated board, whatever the
    script, the console ends with the greeting line. *)
Theorem B_greeting_is_unconditional :
  forall (hw : Type) (P : Zephyr hw) (b : board) (fuel : nat) (s : hw)
         (sc : Sim.script) (s0 : Sim.state),
    (exists rest,
        trace (VariantB.main b fuel s) =
          EvPrintk ("Hello World! %s" ++ LF)%string [CONFIG_BOARD b]
          :: EvGpioIsReady (led0 b) :: rest) /\
    count is_diagnostic (trace (VariantB.main b fuel s)) = 1%nat /\
    Sim.console (final (@VariantB.main _ (Sim.platform sc) b fuel s0)) =
      Sim.console s0 ++ [("Hello World! " ++ CONFIG_BOARD b ++ LF)%string] /\
    hd_error
      (trace (@VariantB.main _ (Sim.platform Sim.not_ready) b fuel s0)) =
      Some (EvPrintk ("Hello World! %s" ++ LF)%string [CONFIG_BOARD b]) /\
    hd_error
      (trace (@VariantB.main _ (Sim.platform Sim.configure_fails) b fuel s0)) =
      Some (EvPrintk ("Hello World! %s" ++ LF)%string [CONFIG_BOARD b]).
Proof.
  intros hw P b fuel s sc s0.
  destruct (B_main_trace_shape b fuel s) as (rest & Hb & Hq).
  split; [exists rest; exact Hb|].
  split.
  - rewrite Hb. unfold count. cbn [filter is_diagnostic]. rewrite Hq. reflexivity.
  - split; [apply sim_main_console|].
    split; reflexivity.
Qed.

(** * Further properties of the two entry points *)

(** ** One more iteration *)

Lemma while1_snoc {hw R} (body : M hw (ctl R)) (n : nat) : forall s : hw,
  value (while1 n body s) = OutOfFuel ->
  while1 (S n) body s =
  Run (exit_of_ctl (value (body (final (while1 n body s)))))
      (final (body (final (while1 n body s))))
      (trace (while1 n body s) ++ trace (body (final (while1 n body s)))).
Proof.
  induction n as [|n IH]; intros s Hrun.
  - cbn [while1]. unfold bind, ret. cbn [value final trace app].
    destruct (value (body s)); cbn; rewrite app_nil_r; reflexivity.
  - destruct (value (body s)) eqn:Hb.
    + rewrite while1_continue in Hrun by assumption. cbn [value] in Hrun.
      rewrite (while1_continue body (S n)) by assumption.
      rewrite (IH _ Hrun).
      rewrite (while1_continue body n) by assumption.
      cbn [value final trace]. rewrite app_assoc. reflexivity.
    + exfalso. cbn [while1] in Hrun. unfold bind in Hrun.
      rewrite Hb in Hrun. discriminate Hrun.
    + exfalso. cbn [while1] in Hrun. unfold bind in Hrun.
      rewrite Hb in Hrun. discriminate Hrun.
Qed.

(** ** Every run of Variant B's loop *)

Section VariantBRuns.
Context {hw : Type} `{Zephyr hw}.
Variable b : board.

Lemma B_loop_cases (fuel : nat) (s : hw) :
  (exists k, (k < fuel)%nat /\
     (forall j, (j < k)%nat -> 0 <= toggle_ret b (after_iterations b j s)) /\
     toggle_ret b (after_iterations b k s) < 0)
  \/ (forall j, (j < fuel)%nat -> 0 <= toggle_ret b (after_iterations b j s)).
Proof.
  induction fuel as [|fuel IH].
  - right. intros j Hj. lia.
  - destruct IH as [(k & Hk & Hok & Hneg) | Hall].
    + left. exists k. repeat split; [lia | assumption | assumption].
    + destruct (Z_lt_ge_dec (toggle_ret b (after_iterations b fuel s)) 0)
        as [Hneg|Hge].
      * left. exists fuel. repeat split; [lia | assumption | assumption].
      * right. intros j Hj.
        destruct (Nat.eq_dec j fuel) as [->|Hne]; [lia | apply Hall; lia].
Qed.

Lemma B_looping_inv (fuel : nat) (s : hw) :
  value (VariantB.main b fuel s) = Looping ->
  is_ready b s = true /\ 0 <= configure_ret b s /\
  value (while1 fuel (VariantB.loop_body b) (loop_entry b s)) = OutOfFuel.
Proof.
  intros Hrun.
  destruct (is_ready b s) eqn:Hr.
  - destruct (Z_lt_ge_dec (configure_ret b s) 0) as [Hneg|Hge].
    + rewrite B_main_configure_fails in Hrun by assumption. discriminate Hrun.
    + apply Z.ge_le in Hge. rewrite B_main_enters_loop in Hrun by assumption.
      cbn [value] in Hrun.
      destruct (value (while1 fuel (VariantB.loop_body b) (loop_entry b s)));
        [auto | discriminate Hrun | discriminate Hrun].
  - rewrite B_main_not_ready in Hrun by assumption. discriminate Hrun.
Qed.

Lemma B_body_value (s : hw) :
  value (VariantB.loop_body b s) = Continue \/
  value (VariantB.loop_body b s) = Return tt.
Proof.
  destruct (Z_lt_ge_dec (toggle_ret b s) 0) as [Hneg|Hge].
  - right. rewrite B_body_fail by assumption. reflexivity.
  - left. apply Z.ge_le in Hge. rewrite B_body_ok by assumption. reflexivity.
Qed.
End VariantBRuns.

Section VariantBShapes.
Context {hw : Type} `{Zephyr hw}.
Variable b : board.

Lemma B_main_fail_run (k fuel : nat) (s : hw) :
  is_ready b s = true ->
  0 <= configure_ret b s ->
  (forall j, (j < k)%nat ->
             0 <= toggle_ret b (after_iterations b j (loop_entry b s))) ->
  toggle_ret b (after_iterations b k (loop_entry b s)) < 0 ->
  (k < fuel)%nat ->
  VariantB.main b fuel s =
  Run (Exit tt) (after_toggle b (after_iterations b k (loop_entry b s)))
      (startup_calls b ++ cycles k (toggle_cycle b)
       ++ [EvGpioToggle (VariantB.led b)]).
Proof.
  intros Hr Hc Hok Hneg Hlt.
  rewrite B_main_enters_loop by assumption.
  rewrite (B_loop_fail b k fuel) by assumption.
  reflexivity.
Qed.

Lemma B_main_ok_run (fuel : nat) (s : hw) :
  is_ready b s = true ->
  0 <= configure_ret b s ->
  (forall j, (j < fuel)%nat ->
             0 <= toggle_ret b (after_iterations b j (loop_entry b s))) ->
  VariantB.main b fuel s =
  Run Looping (after_iterations b fuel (loop_entry b s))
      (startup_calls b ++ cycles fuel (toggle_cycle b)).
Proof.
  intros Hr Hc Hok.
  rewrite B_main_enters_loop by assumption.
  rewrite B_loop_ok by assumption.
  reflexivity.
Qed.

Lemma B_main_trace_cases (fuel : nat) (s : hw) :
  (value (VariantB.main b fuel s) = Exit tt /\
   trace (VariantB.main b fuel s) =
     [EvPrintk greeting_fmt [CONFIG_BOARD b]; EvGpioIsReady (VariantB.led b)])
  \/ (value (VariantB.main b fuel s) = Exit tt /\
      trace (VariantB.main b fuel s) = startup_calls b)
  \/ (exists k, (k < fuel)%nat /\
        value (VariantB.main b fuel s) = Exit tt /\
        trace (VariantB.main b fuel s) =
          startup_calls b ++ cycles k (toggle_cycle b)
          ++ [EvGpioToggle (VariantB.led b)])
  \/ (value (VariantB.main b fuel s) = Looping /\
      trace (VariantB.main b fuel s) =
        startup_calls b ++ cycles fuel (toggle_cycle b)).
Proof.
  destruct (is_ready b s) eqn:Hr.
  - destruct (Z_lt_ge_dec (configure_ret b s) 0) as [Hneg|Hge].
    + right; left. rewrite B_main_configure_fails by assumption.
      split; reflexivity.
    + apply Z.ge_le in Hge.
      destruct (B_loop_cases b fuel (loop_entry b s))
        as [(k & Hk & Hok & Hfail) | Hall].
      * right; right; left. exists k.
        rewrite (B_main_fail_run k fuel) by assumption.
        repeat split; assumption.
      * right; right; right.
        rewrite B_main_ok_run by assumption. split; reflexivity.
  - left. rewrite B_main_not_ready by assumption. split; reflexivity.
Qed.

Lemma filter_sleep_cycles (k : nat) :
  filter is_sleep (cycles k (toggle_cycle b)) = repeat (EvMsleep 1000) k.
Proof.
  induction k as [|k IH]; [reflexivity|].
  cbn [cycles toggle_cycle app filter is_sleep repeat]. rewrite IH. reflexivity.
Qed.

Lemma count_B_shape (p : event -> bool) (k : nat) (tail : list event) :
  count p (startup_calls b ++ cycles k (toggle_cycle b) ++ tail) =
  (count p (startup_calls b) + k * count p (toggle_cycle b) + count p tail)%nat.
Proof. rewrite !count_app, count_cycles. lia. Qed.

Lemma filter_sleep_B_shape (k : nat) (tail : list event) :
  filter is_sleep (startup_calls b ++ cycles k (toggle_cycle b) ++ tail) =
  repeat (EvMsleep 1000) k ++ filter is_sleep tail.
Proof. rewrite !filter_app, filter_sleep_cycles. reflexivity. Qed.

Lemma Forall_cycles (Q : event -> Prop) (c : list event) (k : nat) :
  Forall Q c -> Forall Q (cycles k c).
Proof.
  intros Hc. induction k as [|k IH]; cbn [cycles]; [constructor|].
  apply Forall_app. split; assumption.
Qed.
End VariantBShapes.

Ltac in_alphabet :=
  repeat (apply Forall_cons || apply Forall_nil); cbn; auto 10.

(** X1.  Variant B, on every platform, from every state and for every
    bound: a run is one of four.  The device is not ready and the run is the
    greeting and the readiness check; or configuration fails and the run is
    the three startup calls; or some toggle is the first to fail, after [k]
    iterations, and the run ends with that toggle; or no toggle fails within
    the bound and the run is still in its loop.  In the first three the
    entry point has returned. *)
Theorem B_run_exhaustive :
  forall (hw : Type) (P : Zephyr hw) (b : board) (fuel : nat) (s : hw),
    (is_ready b s = false /\
     VariantB.main b fuel s =
       Run (Exit tt) (after_ready_check b s)
           [EvPrintk greeting_fmt [CONFIG_BOARD b]; EvGpioIsReady (led0 b)])
    \/ (is_ready b s = true /\ configure_ret b s < 0 /\
        VariantB.main b fuel s =
          Run (Exit tt) (loop_entry b s) (startup_calls b))
    \/ (is_ready b s = true /\ 0 <= configure_ret b s /\
        exists k, (k < fuel)%nat /\
          (forall j, (j < k)%nat ->
             0 <= toggle_ret b (after_iterations b j (loop_entry b s))) /\
          toggle_ret b (after_iterations b k (loop_entry b s)) < 0 /\
          VariantB.main b fuel s =
            Run (Exit tt)
                (after_toggle b (after_iterations b k (loop_entry b s)))
                (startup_calls b
                 ++ cycles k [EvGpioToggle (led0 b); EvMsleep 1000]
                 ++ [EvGpioToggle (led0 b)]))
    \/ (is_ready b s = true /\ 0 <= configure_ret b s /\
        (forall j, (j < fuel)%nat ->
           0 <= toggle_ret b (after_iterations b j (loop_entry b s))) /\
        VariantB.main b fuel s =
          Run Looping (after_iterations b fuel (loop_entry b s))
              (startup_calls b
               ++ cycles fuel [EvGpioToggle (led0 b); EvMsleep 1000])).
Proof.
  intros hw P b fuel s.
  destruct (is_ready b s) eqn:Hr.
  - destruct (Z_lt_ge_dec (configure_ret b s) 0) as [Hneg|Hge].
    + right; left. repeat split; [assumption|].
      apply B_main_configure_fails; assumption.
    + apply Z.ge_le in Hge.
      destruct (B_loop_cases b fuel (loop_entry b s))
        as [(k & Hk & Hok & Hfail) | Hall].
      * right; right; left. repeat split; [assumption|].
        exists k. repeat split; try assumption.
        apply B_main_fail_run; assumption.
      * right; right; right. repeat split; try assumption.
        apply B_main_ok_run; assumption.
  - left. split; [reflexivity|]. apply B_main_not_ready; assumption.
Qed.

(** X2.  Variant B: a run that has returned does not depend on the bound
    any more: every larger bound gives the same result, the same final
    state and the same calls. *)
Theorem B_returned_run_is_final :
  forall (hw : Type) (P : Zephyr hw) (b : board) (fuel fuel' : nat) (s : hw),
    value (VariantB.main b fuel s) = Exit tt ->
    (fuel <= fuel')%nat ->
    VariantB.main b fuel' s = VariantB.main b fuel s.
Proof.
  intros hw P b fuel fuel' s Hexit Hle.
  destruct (is_ready b s) eqn:Hr.
  - destruct (Z_lt_ge_dec (configure_ret b s) 0) as [Hneg|Hge].
    + rewrite !B_main_configure_fails by assumption. reflexivity.
    + apply Z.ge_le in Hge.
      destruct (B_loop_cases b fuel (loop_entry b s))
        as [(k & Hk & Hok & Hfail) | Hall].
      * rewrite (B_main_fail_run b k fuel), (B_main_fail_run b k fuel')
          by (assumption || lia).
        reflexivity.
      * rewrite B_main_ok_run in Hexit by assumption. discriminate Hexit.
  - rewrite !B_main_not_ready by assumption. reflexivity.
Qed.

Lemma B_returned_run_is_final_witness :
  @VariantB.main _ (Sim.platform Sim.third_toggle_fails) Sim.feather 40 Sim.power_on
  = @VariantB.main _ (Sim.platform Sim.third_toggle_fails) Sim.feather 3 Sim.power_on.
Proof.
  apply (B_returned_run_is_final _ (Sim.platform Sim.third_toggle_fails)
           Sim.feather 3 40 Sim.power_on).
  - reflexivity.
  - lia.
Defined.

(** X3.  Variant B: raising the bound only extends a run: the calls made
    under a bound are the first calls made under any larger bound. *)
Theorem B_trace_extends :
  forall (hw : Type) (P : Zephyr hw) (b : board) (fuel fuel' : nat) (s : hw),
    (fuel <= fuel')%nat ->
    exists more,
      trace (VariantB.main b fuel' s) = trace (VariantB.main b fuel s) ++ more.
Proof.
  intros hw P b fuel fuel' s Hle.
  destruct (is_ready b s) eqn:Hr.
  - destruct (Z_lt_ge_dec (configure_ret b s) 0) as [Hneg|Hge].
    + exists []. rewrite !B_main_configure_fails by assumption.
      rewrite app_nil_r. reflexivity.
    + apply Z.ge_le in Hge.
      destruct (B_loop_cases b fuel (loop_entry b s))
        as [(k & Hk & Hok & Hfail) | Hall].
      * exists [].
        rewrite (B_main_fail_run b k fuel), (B_main_fail_run b k fuel')
          by (assumption || lia).
        rewrite app_nil_r. reflexivity.
      * rewrite (B_main_ok_run b fuel) by assumption.
        rewrite (B_main_enters_loop b fuel') by assumption.
        replace fuel' with (fuel + (fuel' - fuel))%nat by lia.
        rewrite B_loop_split by assumption.
        cbn [trace]. eexists. rewrite app_assoc. reflexivity.
  - exists []. rewrite !B_main_not_ready by assumption.
    rewrite app_nil_r. reflexivity.
Qed.

Lemma B_trace_extends_witness :
  exists more,
    trace (@VariantB.main _ (Sim.platform Sim.healthy) Sim.feather 5 Sim.power_on)
    = trace (@VariantB.main _ (Sim.platform Sim.healthy) Sim.feather 2 Sim.power_on)
      ++ more.
Proof.
  apply (B_trace_extends _ (Sim.platform Sim.healthy) Sim.feather 2 5 Sim.power_on).
  lia.
Defined.

(** X4.  Variant B, on every platform and for every bound: a run makes one
    readiness check, at most one configuration call and at most as many
    toggle calls as the bound; every sleep is [k_msleep(1000)]; a run still
    in its loop has slept once per toggle, and a run that has returned has
    slept after every toggle but the last. *)
Theorem B_toggle_sleep_accounting :
  forall (hw : Type) (P : Zephyr hw) (b : board) (fuel : nat) (s : hw),
    count is_ready_check (trace (VariantB.main b fuel s)) = 1%nat /\
    (count is_configure (trace (VariantB.main b fuel s)) <= 1)%nat /\
    (count is_toggle (trace (VariantB.main b fuel s)) <= fuel)%nat /\
    filter is_sleep (trace (VariantB.main b fuel s)) =
      repeat (EvMsleep 1000) (count is_sleep (trace (VariantB.main b fuel s))) /\
    match value (VariantB.main b fuel s) with
    | Looping =>
        count is_toggle (trace (VariantB.main b fuel s)) = fuel /\
        count is_sleep (trace (VariantB.main b fuel s)) = fuel
    | Exit _ =>
        count is_sleep (trace (VariantB.main b fuel s)) =
        Nat.pred (count is_toggle (trace (VariantB.main b fuel s)))
    end.
Proof.
  intros hw P b fuel s.
  destruct (B_main_trace_cases b fuel s)
    as [[Hv Ht] | [[Hv Ht] | [(k & Hk & Hv & Ht) | [Hv Ht]]]];
    rewrite Hv, Ht.
  - cbn. repeat split; lia.
  - cbn. repeat split; lia.
  - rewrite !count_B_shape, filter_sleep_B_shape. cbn.
    rewrite !Nat.mul_0_r, !Nat.mul_1_r, !Nat.add_0_r, app_nil_r.
    repeat split; lia.
  - rewrite <- (app_nil_r (cycles fuel (toggle_cycle b))).
    rewrite !count_B_shape, filter_sleep_B_shape. cbn.
    rewrite !Nat.mul_0_r, !Nat.mul_1_r, !Nat.add_0_r, app_nil_r.
    repeat split; lia.
Qed.

(** X5.  Variant B, on every platform and for every bound: every call of a
    run is the greeting, or a readiness check, a configuration with
    [GPIO_OUTPUT_ACTIVE] or a toggle of the one pin [led0], or
    [k_msleep(1000)].  The run never calls the LED driver, [LOG_INF] or
    [k_sleep], and never touches another pin. *)
Theorem B_calls_only_its_pin :
  forall (hw : Type) (P : Zephyr hw) (b : board) (fuel : nat) (s : hw),
    Forall (fun e =>
              In e [EvPrintk ("Hello World! %s" ++ LF)%string [CONFIG_BOARD b];
                    EvGpioIsReady (led0 b);
                    EvGpioConfigure (led0 b) GPIO_OUTPUT_ACTIVE;
                    EvGpioToggle (led0 b);
                    EvMsleep 1000])
           (trace (VariantB.main b fuel s)).
Proof.
  intros hw P b fuel s.
  assert (Hcyc : forall k,
    Forall (fun e =>
              In e [EvPrintk ("Hello World! %s" ++ LF)%string [CONFIG_BOARD b];
                    EvGpioIsReady (led0 b);
                    EvGpioConfigure (led0 b) GPIO_OUTPUT_ACTIVE;
                    EvGpioToggle (led0 b);
                    EvMsleep 1000])
           (cycles k (toggle_cycle b))).
  { intros k. apply Forall_cycles. unfold toggle_cycle. in_alphabet. }
  destruct (B_main_trace_cases b fuel s)
    as [[_ Ht] | [[_ Ht] | [(k & _ & _ & Ht) | [_ Ht]]]];
    rewrite Ht; rewrite ?Forall_app; repeat split;
    try apply Hcyc; unfold startup_calls; in_alphabet.
Qed.

(** X6.  Variant A, on every platform and for every bound: every call of a
    run is the startup log line, [led_on] or [led_off] of channel 2 of the
    one LED controller, or [k_sleep(K_MSEC(1000))]; a run of [fuel]
    iterations has made [fuel] on calls and [fuel] off calls.  The run never
    calls the GPIO driver, [printk] or [k_msleep]. *)
Theorem A_calls_only_its_led :
  forall (hw : Type) (P : Zephyr hw) (b : board) (fuel : nat) (s : hw),
    Forall (fun e =>
              In e [EvLogInf "Blinky Sample";
                    EvLedOn (npm1300_leds b) 2;
                    EvLedOff (npm1300_leds b) 2;
                    EvSleep (K_MSEC 1000)])
           (trace (VariantA.main b fuel s)) /\
    count is_led_on (trace (VariantA.main b fuel s)) = fuel /\
    count is_led_off (trace (VariantA.main b fuel s)) = fuel.
Proof.
  intros hw P b fuel s.
  destruct (A_main_run b fuel s) as [_ Ht]. rewrite Ht.
  change (EvLogInf "Blinky Sample" :: cycles fuel (blink_cycle b))
    with ([EvLogInf "Blinky Sample"] ++ cycles fuel (blink_cycle b)).
  split; [|split].
  - apply Forall_app. split.
    + in_alphabet.
    + apply Forall_cycles. unfold blink_cycle. in_alphabet.
  - rewrite count_app, count_cycles. cbn. lia.
  - rewrite count_app, count_cycles. cbn. lia.
Qed.

(** X7.  Variant A, on every platform: a run with one more iteration is the
    run without it followed by the loop body started in the state that run
    ended in; the state of the hardware is carried from each iteration to
    the next. *)
Theorem A_one_more_iteration :
  forall (hw : Type) (P : Zephyr hw) (b : board) (fuel : nat) (s : hw),
    VariantA.main b (S fuel) s =
    Run Looping
        (final (VariantA.loop_body b (final (VariantA.main b fuel s))))
        (trace (VariantA.main b fuel s)
         ++ trace (VariantA.loop_body b (final (VariantA.main b fuel s)))).
Proof.
  intros hw P b fuel s.
  unfold VariantA.main, bind. cbn [value final trace].
  set (s1 := final (LOG_INF "Blinky Sample" s)).
  destruct (A_loop_run b fuel s1) as [Hv _].
  destruct (A_loop_run b (S fuel) s1) as [Hv' _].
  rewrite Hv, Hv'. cbn [after_loop ret value final trace].
  rewrite (while1_snoc _ fuel s1 Hv). cbn [value final trace].
  rewrite !app_nil_r, <- !app_assoc. reflexivity.
Qed.

(** X8.  Variant B, on every platform: when a run is still in its loop, the
    run with one more iteration is that run followed by the loop body
    started in the state it ended in; it is still in the loop if the body
    continued and has returned if the body returned. *)
Theorem B_one_more_iteration :
  forall (hw : Type) (P : Zephyr hw) (b : board) (fuel : nat) (s : hw),
    value (VariantB.main b fuel s) = Looping ->
    VariantB.main b (S fuel) s =
    Run (match value (VariantB.loop_body b (final (VariantB.main b fuel s))) with
         | Continue => Looping
         | _ => Exit tt
         end)
        (final (VariantB.loop_body b (final (VariantB.main b fuel s))))
        (trace (VariantB.main b fuel s)
         ++ trace (VariantB.loop_body b (final (VariantB.main b fuel s)))).
Proof.
  intros hw P b fuel s Hrun.
  destruct (B_looping_inv b fuel s Hrun) as (Hr & Hc & Hl).
  rewrite !B_main_enters_loop by assumption.
  rewrite (while1_snoc _ fuel _ Hl). cbn [value final trace].
  rewrite app_assoc.
  destruct (B_body_value b
              (final (while1 fuel (VariantB.loop_body b) (loop_entry b s))))
    as [Hb|Hb]; rewrite Hb; reflexivity.
Qed.

Lemma B_one_more_iteration_witness :
  @VariantB.main _ (Sim.platform Sim.third_toggle_fails) Sim.feather 3 Sim.power_on
  = Run (Exit tt)
        (Sim.State true true 3 [true; false] 0 [] 2000
           [("Hello World! circuitdojo_feather_nrf9160" ++ LF)%string])
        (trace (@VariantB.main _ (Sim.platform Sim.third_toggle_fails)
                  Sim.feather 2 Sim.power_on)
         ++ [EvGpioToggle (led0 Sim.feather)]).
Proof.
  refine (eq_trans
    (B_one_more_iteration _ (Sim.platform Sim.third_toggle_fails)
       Sim.feather 2 Sim.power_on _) _).
  - reflexivity.
  - reflexivity.
Defined.

(** X9.  Variant B, on every platform: the entry point returns within the
    bound exactly when one of its three checks fails: the device is not
    ready, or the configuration status is negative, or the status of the
    toggle of some iteration within the bound is negative.  Otherwise it is
    still in its loop. *)
Theorem B_returns_iff_a_check_fails :
  forall (hw : Type) (P : Zephyr hw) (b : board) (fuel : nat) (s : hw),
    (value (VariantB.main b fuel s) = Exit tt <->
     is_ready b s = false \/
     configure_ret b s < 0 \/
     exists k, (k < fuel)%nat /\
               toggle_ret b (after_iterations b k (loop_entry b s)) < 0) /\
    (value (VariantB.main b fuel s) = Looping <->
     is_ready b s = true /\
     0 <= configure_ret b s /\
     forall k, (k < fuel)%nat ->
               0 <= toggle_ret b (after_iterations b k (loop_entry b s))).
Proof.
  intros hw P b fuel s.
  destruct (is_ready b s) eqn:Hr.
  - destruct (Z_lt_ge_dec (configure_ret b s) 0) as [Hneg|Hge].
    + rewrite B_main_configure_fails by assumption. cbn [value].
      split; split; try discriminate; auto.
      intros (_ & Hc & _). lia.
    + apply Z.ge_le in Hge.
      destruct (B_loop_cases b fuel (loop_entry b s))
        as [(k & Hk & Hok & Hfail) | Hall].
      * rewrite (B_main_fail_run b k fuel) by assumption. cbn [value].
        split; split; try discriminate.
        -- intros _. right; right. exists k. split; assumption.
        -- reflexivity.
        -- intros (_ & _ & Hall). specialize (Hall k Hk). lia.
      * rewrite B_main_ok_run by assumption. cbn [value].
        split; split; try discriminate.
        -- intros [Hx | [Hx | (k & Hk & Hx)]];
             [discriminate Hx | lia | specialize (Hall k Hk); lia].
        -- intros _. repeat split; assumption.
        -- reflexivity.
  - rewrite B_main_not_ready by assumption. cbn [value].
    split; split; try discriminate; auto.
    intros (Hx & _). discriminate Hx.
Qed.
